(** * The probing engine of [streamlit_app.py]

    A shallow embedding of the two coroutines [fetch] and [run_search]
    (the "ENGINE" part of the script) and the properties of the
    specification that concern them.

    Conventions of the model.
    - A Python [str] is a [string]; a Python [int] is a [Z].
    - A Python [float] is a rational [Q]: rounding of float arithmetic is
      not modelled, only the exact values.
    - A catalogue entry ([site_data] in [fetch]) is a Python dict with
      string keys: a [gmap string pyval].
    - The catalogue ([site_data] in [run_search]) is a dict whose
      insertion order matters ([list(site_data.items())[:200]]): an
      association list.
    - Exceptions, the wall clock and the network are effects: [fetch] is
      written in a state-and-exception monad whose state is the reading of
      [time.time()]; what the network answers is an argument. *)

From Stdlib Require Import Ascii ZArith QArith Qround Lia.
From stdpp Require Import base option list strings gmap pretty.

Local Open Scope Z_scope.
Local Open Scope string_scope.
Local Open Scope list_scope.

(** ** Python values and exceptions *)

(** The values a catalogue entry can hold (it is parsed from JSON). *)
#[warnings="-register-all"]
Inductive pyval : Type :=
| PyNone
| PyBool (b : bool)
| PyInt (z : Z)
| PyFloat (q : Q)
| PyStr (s : string)
| PyList (l : list pyval).

(** The exceptions that can arise in the engine. *)
Inductive exn : Type :=
| KeyError
| AttributeError
| ValueError
| IndexError
| TypeError
| ClientError          (* aiohttp.ClientError: connection, DNS, TLS, ... *)
| TimeoutError         (* asyncio.TimeoutError *)
| UnicodeDecodeError.

Global Instance exn_eq_dec : EqDecision exn.
Proof. solve_decision. Defined.

(** ** Configuration (lines 10-12) *)

Definition MAX_CONCURRENT_REQUESTS : Z := 50.
Definition TIMEOUT_SECONDS : Z := 10.

(** ** The monad of [fetch]: wall clock and exceptions *)

(** A computation reads and advances the wall clock (seconds, as
    [time.time()] reports them) and either raises or returns. *)
Definition M (A : Type) : Type := Q → (exn + A) * Q.

Definition ret {A} (a : A) : M A := λ clock, (inr a, clock).

Definition raise {A} (e : exn) : M A := λ clock, (inl e, clock).

Definition bind {A B} (m : M A) (k : A → M B) : M B :=
  λ clock,
    match m clock with
    | (inl e, clock') => (inl e, clock')
    | (inr a, clock') => k a clock'
    end.

(** [try: body  except: pass] followed by [handler]: a bare [except]
    catches every exception. *)
Definition try_except {A} (body : M A) (handler : M A) : M A :=
  λ clock,
    match body clock with
    | (inl _, clock') => handler clock'
    | (inr a, clock') => (inr a, clock')
    end.

(** Lifting of a pure step that can raise. *)
Definition lift {A} (r : exn + A) : M A := λ clock, (r, clock).

(** [time.time()] *)
Definition time_time : M Q := λ clock, (inr clock, clock).

(** An [await] during which [wait] seconds of wall clock pass. *)
Definition sleep (wait : Q) : M unit := λ clock, (inr tt, (clock + wait)%Q).

Notation "'let*' x ':=' m 'in' k" := (bind m (λ x, k))
  (at level 10, x name, m at level 100, k at level 200).

(** ** The network *)

(** What [await response.text()] does: after [wait] seconds it raises (the
    body is not decodable as text, the connection breaks, the timeout
    fires) or returns the decoded body. *)
Inductive text_reply : Type :=
| TextRaises (wait : Q) (e : exn)
| TextReturns (wait : Q) (body : string).

(** The [response] object bound by [async with session.get(...)]: it is
    available once the status line and headers have arrived; the body is
    read by [response.text()]. *)
Record Response : Type := mkResponse {
  resp_status : Z;             (* response.status *)
  resp_url : string;           (* str(response.url), after redirects *)
  resp_text : text_reply       (* await response.text() *)
}.

(** The arguments of [session.get]. *)
Record Request : Type := mkRequest {
  req_url : string;
  req_timeout : Z;             (* seconds *)
  req_allow_redirects : bool
}.

(** What [session.get] does for one probe: after [wait] seconds it raises
    (connection, DNS or TLS error, timeout, invalid URL) or yields the
    response. *)
Inductive get_reply : Type :=
| GetRaises (wait : Q) (e : exn)
| GetResponds (wait : Q) (r : Response).

(** Line 46: the request [fetch] makes for [url]. *)
Definition request_for (url : string) : Request :=
  {| req_url := url; req_timeout := TIMEOUT_SECONDS;
     req_allow_redirects := true |}.

(** [async with session.get(url, timeout=TIMEOUT_SECONDS,
    allow_redirects=True) as response]. *)
Definition session_get (get : Request → get_reply) (url : string) : M Response :=
  match get (request_for url) with
  | GetRaises wait e => let* _ := sleep wait in raise e
  | GetResponds wait r => let* _ := sleep wait in ret r
  end.

Definition response_text (r : Response) : M string :=
  match resp_text r with
  | TextRaises wait e => let* _ := sleep wait in raise e
  | TextReturns wait body => let* _ := sleep wait in ret body
  end.

(** ** Python primitives used by [fetch] *)

(** [d[key]] on a dict. *)
Definition py_getitem (d : gmap string pyval) (key : string) : exn + pyval :=
  match d !! key with
  | Some v => inr v
  | None => inl KeyError
  end.

(** [d.get(key)] on a dict: [None] when the key is absent. *)
Definition py_get (d : gmap string pyval) (key : string) : pyval :=
  default PyNone (d !! key).

(** [v == s] for a string literal [s]. *)
Definition py_eq_str (v : pyval) (s : string) : bool :=
  match v with
  | PyStr s' => bool_decide (s' = s)
  | _ => false
  end.

(** [needle in haystack] on two strings: some suffix of [haystack] starts
    with [needle]. *)
Fixpoint str_contains (needle haystack : string) : bool :=
  String.prefix needle haystack ||
  match haystack with
  | EmptyString => false
  | String _ rest => str_contains needle rest
  end.

(** [v not in text] where [text] is a string: the left operand must be a
    string, anything else raises [TypeError]. *)
Definition py_not_in (v : pyval) (text : string) : exn + bool :=
  match v with
  | PyStr needle => inr (negb (str_contains needle text))
  | _ => inl TypeError
  end.

(** [f"{latency:.0f}"]: the nearest integer, ties to the even one, in
    decimal; a negative value that rounds to zero keeps its sign. *)
Definition round_half_even (q : Q) : Z :=
  let f := Qfloor q in
  match (q - inject_Z f ?= 1 # 2)%Q with
  | Lt => f
  | Gt => f + 1
  | Eq => if Z.even f then f else f + 1
  end.

Definition format_0f (q : Q) : string :=
  let n := round_half_even q in
  if bool_decide (n = 0) && negb (Qle_bool 0 q) then "-0" else pretty n.

(** ** [fetch] (lines 40-73) *)

(** The dict literal returned for a match (lines 64-70). *)
Record match_record : Type := mkMatch {
  site : string;
  url : string;
  status_field : string;     (* key "status" *)
  latency_ms : string;
  category : string
}.

Global Instance match_record_eq_dec : EqDecision match_record.
Proof. solve_decision. Defined.

Section Fetch.

(** [tmpl.format(username)]: Python's [str.format] with one positional
    argument, which raises on a malformed template. *)
Variable str_format : string → string → exn + string.

(** Line 41: [site_data["url"].format(username)]. Only a [str] has the
    method [format] in a parsed JSON document. *)
Definition build_url (site_data : gmap string pyval) (username : string)
  : exn + string :=
  match py_getitem site_data "url" with
  | inl e => inl e
  | inr (PyStr tmpl) => str_format tmpl username
  | inr _ => inl AttributeError
  end.

(** Lines 52-61: the value of [exists] after the [if]/[elif] chain. *)
Definition detect (site_data : gmap string pyval) (error_type : pyval)
    (url : string) (response : Response) (status : Z) (text : string)
  : exn + bool :=
  if py_eq_str error_type "status_code" then
    inr (negb (status =? 404)%Z)
  else if py_eq_str error_type "message" then
    py_not_in (py_get site_data "errorMsg") text
  else if py_eq_str error_type "response_url" then
    inr (bool_decide (resp_url response = url))
  else
    inr false.

(** Lines 45-70: the body of the [try]. It returns [Some] record at the
    [return] of line 64 and [None] when it runs to its end. *)
Definition fetch_try (get : Request → get_reply) (site_name : string)
    (site_data : gmap string pyval) (error_type : pyval) (url : string)
  : M (option match_record) :=
  let* start_time := time_time in
  let* response := session_get get url in
  let* now := time_time in
  let latency := ((now - start_time) * 1000)%Q in
  let status := resp_status response in
  let* text := response_text response in
  let* exists_ := lift (detect site_data error_type url response status text) in
  if exists_ : bool then
    ret (Some {| site := site_name;
                 url := url;
                 status_field := "Found";
                 latency_ms := format_0f latency;
                 category := "Social" |})
  else
    ret None.

Definition fetch (get : Request → get_reply) (site_name : string)
    (site_data : gmap string pyval) (username : string)
  : M (option match_record) :=
  let* url := lift (build_url site_data username) in
  let error_type := py_get site_data "errorType" in
  try_except (fetch_try get site_name site_data error_type url) (ret None).

End Fetch.

(** The three ways [fetch] can leave its [try] statement once the URL is
    built: through the [return] of line 64 ([Found]), by running the body
    to its end with [exists] false ([NotFound]), or through the handler of
    line 71 ([ProbeFailed]). The last two both end at [return None]. *)
Inductive Verdict : Type := Found | NotFound | ProbeFailed.

Global Instance Verdict_eq_dec : EqDecision Verdict.
Proof. solve_decision. Defined.

Definition verdict (get : Request → get_reply) (site_name : string)
    (site_data : gmap string pyval) (url : string) (clock : Q) : Verdict :=
  match (fetch_try get site_name site_data
           (py_get site_data "errorType") url clock).1 with
  | inl _ => ProbeFailed
  | inr None => NotFound
  | inr (Some _) => Found
  end.

(** ** [str.format] on the templates of a catalogue *)

(** Which kind of replacement field a template has used so far: [{}]
    (automatic numbering) and [{0}] (manual numbering) cannot be mixed. *)
Inductive numbering : Type := NumUnset | NumAuto | NumManual.

(** The characters that start, inside a replacement field, an attribute
    or index access, a conversion, a format spec or a nested field, and
    the characters outside ASCII: fields that have one are not modelled. *)
Definition field_char_modelled (c : ascii) : bool :=
  negb (bool_decide (c ∈ ["."; "["; "!"; ":"; "{"]%char))
  && (N_of_ascii c <? 128)%N.

(** The number a field name made of decimal digits denotes. *)
Fixpoint field_index (digits : string) (acc : N) : option N :=
  match digits with
  | EmptyString => Some acc
  | String c rest =>
      match Ascii.is_nat c with
      | Some d => field_index rest (10 * acc + N.of_nat d)
      | None => None
      end
  end.

(** Looking up the argument a field names, when the only argument is the
    positional one of index 0 (there are no keyword arguments). The
    outer [None] is a field outside the model. *)
Definition field_lookup (field : string) (num : numbering)
  : option (exn + numbering) :=
  if bool_decide (field = "") then
    Some match num with
         | NumUnset => inr NumAuto
         | NumAuto => inl IndexError      (* the second [{}] asks for index 1 *)
         | NumManual => inl ValueError    (* switch from manual to automatic *)
         end
  else
    match field_index field 0 with
    | Some i =>
        if bool_decide (18 < String.length field)%nat then None
        else Some match num with
                  | NumAuto => inl ValueError   (* switch from automatic to manual *)
                  | _ => if (i =? 0)%N then inr NumManual else inl IndexError
                  end
    | None => Some (inl KeyError)               (* a keyword that was not passed *)
    end.

Inductive format_state : Type :=
| InText
| InField (field : string).

(** [tmpl.format(username)], character by character: literal text with
    the escapes [{{] and [}}], and replacement fields. *)
Fixpoint format_go (tmpl : string) (st : format_state) (num : numbering)
    (username out : string) : option (exn + string) :=
  match st, tmpl with
  | InText, EmptyString => Some (inr out)
  | InText, String "{" (String "{" rest) =>
      format_go rest InText num username (out +:+ "{")
  | InText, String "{" rest =>
      format_go rest (InField "") num username out
  | InText, String "}" (String "}" rest) =>
      format_go rest InText num username (out +:+ "}")
  | InText, String "}" _ => Some (inl ValueError)   (* single closing brace *)
  | InText, String c rest =>
      format_go rest InText num username (out +:+ String c "")
  | InField _, EmptyString => Some (inl ValueError) (* the field is not closed *)
  | InField field, String "}" rest =>
      match field_lookup field num with
      | None => None
      | Some (inl e) => Some (inl e)
      | Some (inr num') => format_go rest InText num' username (out +:+ username)
      end
  | InField field, String c rest =>
      if field_char_modelled c
      then format_go rest (InField (field +:+ String c "")) num username out
      else None
  end.

(** [None]: the template is outside the modelled syntax. *)
Definition py_format (tmpl username : string) : option (exn + string) :=
  format_go tmpl InText NumUnset username "".

(** [str.format] as a total function, for the examples below; they use
    it on modelled templates only, where the placeholder does not show. *)
Definition str_format_model (tmpl username : string) : exn + string :=
  default (inl ValueError) (py_format tmpl username).

(** ** [run_search] (lines 75-96) *)

(** What reaches the page: [st.progress(0)] creates the bar,
    [progress_bar.progress(v)] moves it. *)
Inductive ui_event : Type :=
| ProgressBar (value : Q)
| ProgressUpdate (value : Q).

(** [asyncio.as_completed]: the futures in the order in which they
    finish; [order] lists the positions of the tasks in that order. *)
Definition as_completed {A} (order : list nat) (futures : list A) : list A :=
  omap (λ i, futures !! i) order.

(** Lines 89-94: the loop over the finished futures. [await future]
    re-raises what the coroutine raised, which leaves [run_search]. *)
Fixpoint collect (futures : list (exn + option match_record)) (total : Z)
    (results : list match_record) (completed : Z) (ui : list ui_event)
  : list ui_event * (exn + list match_record) :=
  match futures with
  | [] => (ui, inr results)
  | inl e :: _ => (ui, inl e)
  | inr result :: rest =>
      let results :=
        match result with
        | Some r => results ++ [r]
        | None => results
        end in
      let completed := completed + 1 in
      collect rest total results completed
        (ui ++ [ProgressUpdate (inject_Z completed / inject_Z total)])
  end.

Section Search.

Variable str_format : string → string → exn + string.

(** The network and the clock as the tasks meet them. What [session.get]
    does for the task at position [i] is [network limit i], where [limit]
    is the limit of the session's connector; [clock i] is the reading of
    [time.time()] when that task starts to run. *)
Variable network : Z → nat → Request → get_reply.
Variable clock : nat → Q.

(** Lines 77-78: the session over
    [aiohttp.TCPConnector(limit=MAX_CONCURRENT_REQUESTS)]. *)
Definition client_session : nat → Request → get_reply :=
  network MAX_CONCURRENT_REQUESTS.

(** Lines 79-82: one coroutine [fetch(session, site_name, data, username)]
    for each of the first 200 entries. *)
Definition dispatched (site_data : list (string * gmap string pyval))
  : list (string * gmap string pyval) :=
  take 200 site_data.

(** What awaiting the task at position [i] gives. *)
Definition outcome (username : string) (i : nat)
    (task : string * gmap string pyval) : exn + option match_record :=
  (fetch str_format (client_session i) task.1 task.2 username (clock i)).1.

Definition run_search (order : list nat) (username : string)
    (site_data : list (string * gmap string pyval))
  : list ui_event * (exn + list match_record) :=
  let results := [] in
  let tasks := imap (outcome username) (dispatched site_data) in
  let ui := [ProgressBar 0] in
  let completed := 0 in
  let total := Z.of_nat (length tasks) in
  collect (as_completed order tasks) total results completed ui.

End Search.


(** ** Observations on a scan *)

(** The fraction [completed / total] after the [k]-th completion. *)
Definition fraction (total : Z) (k : nat) : Q :=
  inject_Z (Z.of_nat k) / inject_Z total.

(** The results awaited before the first future that raises. *)
Fixpoint awaited (futures : list (exn + option match_record))
  : list (option match_record) :=
  match futures with
  | inr result :: rest => result :: awaited rest
  | _ => []
  end.

(** A future that returns rather than raises. *)
Definition returns {A} (future : exn + A) : Prop :=
  match future with
  | inr _ => True
  | inl _ => False
  end.

(** The records among the outcomes of the tasks. *)
Definition found_record (future : exn + option match_record)
  : option match_record :=
  match future with
  | inr (Some m) => Some m
  | _ => None
  end.

(** The values shown by the progress bar, in order. *)
Definition progress_values (ui : list ui_event) : list Q :=
  (λ ev, match ev with ProgressBar v | ProgressUpdate v => v end) <$> ui.

(** The values passed to [progress_bar.progress], in order. *)
Definition updates (ui : list ui_event) : list Q :=
  omap (λ ev, match ev with ProgressUpdate v => Some v | ProgressBar _ => None end) ui.

(** The update after the [k]-th completion. *)
Definition tick (total : Z) (k : nat) : ui_event :=
  ProgressUpdate (fraction total k).

(** ** Example data: the two-site catalogue of the specification *)

Definition site_a : gmap string pyval :=
  {[ "url" := PyStr "https://a.test/{}"; "errorType" := PyStr "status_code" ]}.

Definition site_b : gmap string pyval :=
  {[ "url" := PyStr "https://b.test/{}"; "errorType" := PyStr "message";
     "errorMsg" := PyStr "User not found" ]}.

Definition site_c : gmap string pyval :=
  {[ "url" := PyStr "https://c.test/u/{}"; "errorType" := PyStr "response_url" ]}.

(** An entry whose rule is none of the three known ones. *)
Definition site_odd : gmap string pyval :=
  {[ "url" := PyStr "https://odd.test/{}"; "errorType" := PyStr "regex" ]}.

(** An entry whose template has an unclosed brace. *)
Definition site_broken : gmap string pyval :=
  {[ "url" := PyStr "https://broken.test/{"; "errorType" := PyStr "status_code" ]}.

(** A server that answers every URL after 0.1 s with the given status,
    without redirect, and whose body takes 2 s more to read. *)
Definition serve (status : Z) (body : string) (req : Request) : get_reply :=
  GetResponds (1 # 10)
    {| resp_status := status; resp_url := req_url req;
       resp_text := TextReturns 2 body |}.

(** A server that redirects every request to its front page. *)
Definition redirect_home (req : Request) : get_reply :=
  GetResponds (1 # 10)
    {| resp_status := 200; resp_url := "https://c.test/";
       resp_text := TextReturns 2 "Welcome" |}.

(** ** Example catalogues *)

Definition two_sites : list (string * gmap string pyval) :=
  [("SiteA", site_a); ("SiteB", site_b)].

(** 201 entries with distinct names. *)
Definition catalogue_201 : list (string * gmap string pyval) :=
  (λ i : nat, ("Site" +:+ pretty i, site_a)) <$> seq 0 201.

(** A network on which every site answers 200 with the given body,
    whatever the limit of the connector. *)
Definition all_serve (body : string) (limit : Z) (i : nat)
  : Request → get_reply :=
  serve 200 body.

Definition at_zero (i : nat) : Q := 0.

(** ** More example data *)

(** A host that cannot be reached: the request times out. *)
Definition unreachable (req : Request) : get_reply :=
  GetRaises 10 TimeoutError.

(** A server whose body cannot be decoded as text. *)
Definition serve_binary (req : Request) : get_reply :=
  GetResponds (1 # 10)
    {| resp_status := 200; resp_url := req_url req;
       resp_text := TextRaises (1 # 2) UnicodeDecodeError |}.

(** A [message] entry whose marker is a list of strings. *)
Definition site_markers : gmap string pyval :=
  {[ "url" := PyStr "https://m.test/{}"; "errorType" := PyStr "message";
     "errorMsg" := PyList [PyStr "Not found"; PyStr "No such user"] ]}.

(** A [message] entry with the empty marker. *)
Definition site_empty_marker : gmap string pyval :=
  {[ "url" := PyStr "https://e.test/{}"; "errorType" := PyStr "message";
     "errorMsg" := PyStr "" ]}.

(** An entry without template. *)
Definition site_no_url : gmap string pyval :=
  {[ "errorType" := PyStr "status_code" ]}.

(** The records of the two sites for ["alice"], when the request takes
    0.1 s. *)
Definition match_a : match_record :=
  {| site := "SiteA"; url := "https://a.test/alice"; status_field := "Found";
     latency_ms := "100"; category := "Social" |}.

Definition match_b : match_record :=
  {| site := "SiteB"; url := "https://b.test/alice"; status_field := "Found";
     latency_ms := "100"; category := "Social" |}.

(** A catalogue whose second entry has a malformed template. *)
Definition broken_sites : list (string * gmap string pyval) :=
  [("SiteA", site_a); ("Broken", site_broken)].

(** A network on which no host can be reached. *)
Definition all_unreachable (limit : Z) (i : nat) : Request → get_reply :=
  unreachable.


(** ** The page (lines 117-178) *)

(** [d[key] = value] on a dict kept as the list of its items: an existing
    key keeps its place, a new key goes to the end. *)
Fixpoint dict_set {V} (key : string) (value : V) (d : list (string * V))
  : list (string * V) :=
  match d with
  | [] => [(key, value)]
  | (k, v) :: rest =>
      if bool_decide (k = key) then (k, value) :: rest
      else (k, v) :: dict_set key value rest
  end.

(** [dict(pairs)], as the list of its items. *)
Definition py_dict {V} (pairs : list (string * V)) : list (string * V) :=
  foldl (λ d kv, dict_set kv.1 kv.2 d) [] pairs.

(** What [status_text] shows. *)
Inductive status_line : Type :=
| Fetching                   (* line 120 *)
| Scanning (platforms : nat) (* line 130 *)
| Cleared.                   (* line 137 *)

(** What the page shows below the status line. The dashboard (lines
    140-173: the success message, the three metrics, the table and the
    download button) is rendered from the frame of the results and from
    [len(sites_data)]. *)
Inductive report : Type :=
| Nothing
| ErrorBox (e : exn)                                   (* line 178 *)
| NoMatches                                            (* line 175 *)
| Dashboard (df : list match_record) (coverage : nat).

Record page : Type := mkPage {
  progress : list ui_event;
  status_text : status_line;
  shown : report
}.

Section Page.

Variable str_format : string → string → exn + string.
Variable network : Z → nat → Request → get_reply.
Variable clock : nat → Q.

(** Lines 117-178. [read_json] is what [pd.read_json(DATA_URL)] does: it
    raises or gives the catalogue, whose columns are the sites; [order]
    is the order in which the probes of this run complete. *)
Definition main (start_btn : bool) (target_username search_mode : string)
    (read_json : exn + list (string * gmap string pyval)) (order : list nat)
  : option page :=
  if start_btn && negb (bool_decide (target_username = "")) then
    match read_json with
    | inl e =>
        Some {| progress := []; status_text := Fetching; shown := ErrorBox e |}
    | inr sites_df =>
        let sites_data :=
          if bool_decide (search_mode = "Fast (Top 200 Sites)")
          then py_dict (take 200 sites_df)
          else py_dict sites_df in
        let scan :=
          run_search str_format network clock order target_username
            sites_data in
        match scan.2 with
        | inl e =>
            Some {| progress := scan.1;
                    status_text := Scanning (length sites_data);
                    shown := ErrorBox e |}
        | inr [] =>
            Some {| progress := scan.1; status_text := Cleared;
                    shown := NoMatches |}
        | inr results =>
            Some {| progress := scan.1; status_text := Cleared;
                    shown := Dashboard results (length sites_data) |}
        end
    end
  else None.

End Page.

(** The page [p] with [n] in place of [len(sites_data)], which it shows
    in the status line while scanning and as coverage of the dashboard. *)
Definition recount (n : nat) (p : page) : page :=
  {| progress := progress p;
     status_text := match status_text p with
                    | Scanning _ => Scanning n
                    | line => line
                    end;
     shown := match shown p with
              | Dashboard df _ => Dashboard df n
              | r => r
              end |}.

(** A catalogue frame of 201 sites; every site answers 200. *)
Definition frame_201 : exn + list (string * gmap string pyval) :=
  inr catalogue_201.

(** A string without braces. *)
Fixpoint brace_free (s : string) : bool :=
  match s with
  | EmptyString => true
  | String c rest =>
      negb (bool_decide (c = "{"%char)) && negb (bool_decide (c = "}"%char))
      && brace_free rest
  end.

(** * Properties *)

(** ** Substring test *)

Lemma append_cons (c : ascii) (s t : string) :
  String c s +:+ t = String c (s +:+ t).
Proof. reflexivity. Qed.

Lemma prefix_app (needle haystack : string) :
  String.prefix needle haystack = true ↔ ∃ post, haystack = needle +:+ post.
Proof.
  revert haystack. induction needle as [|c needle IH]; intros haystack; simpl.
  - destruct haystack; split; eauto.
  - setoid_rewrite append_cons.
    destruct haystack as [|c' haystack]; simpl.
    + split; [done | intros [post [=]]].
    + destruct (ascii_dec c c') as [->|Hne].
      * rewrite IH. split; intros [post Hpost]; exists post; congruence.
      * split; [done | intros [post [=]]; congruence].
Qed.

Lemma str_contains_nil (needle : string) :
  str_contains needle "" = String.prefix needle "" || false.
Proof. reflexivity. Qed.

Lemma str_contains_cons (needle : string) (c : ascii) (haystack : string) :
  str_contains needle (String c haystack) =
    String.prefix needle (String c haystack) || str_contains needle haystack.
Proof. reflexivity. Qed.

(** [str_contains] decides whether [needle] occurs in [haystack]. *)
Lemma str_contains_spec (needle haystack : string) :
  str_contains needle haystack = true
  ↔ ∃ pre post, haystack = pre +:+ needle +:+ post.
Proof.
  induction haystack as [|c haystack IH].
  - rewrite str_contains_nil, orb_true_iff, prefix_app. split.
    + intros [[post Hpost] | [=]]. by exists "", post.
    + intros [pre [post Hpost]]. left.
      destruct pre; [eauto | rewrite append_cons in Hpost; discriminate].
  - rewrite str_contains_cons, orb_true_iff, prefix_app, IH. split.
    + intros [[post Hpost] | [pre [post Hpost]]].
      * by exists "", post.
      * exists (String c pre), post. rewrite append_cons. congruence.
    + intros [pre [post Hpost]]. destruct pre as [|c' pre].
      * left. eauto.
      * right. exists pre, post. rewrite append_cons in Hpost. congruence.
Qed.

(** ** Rounding respects equality of rationals *)

Lemma round_half_even_proper (q q' : Q) :
  (q == q')%Q → round_half_even q = round_half_even q'.
Proof.
  intros Heq. unfold round_half_even.
  rewrite (Qfloor_comp _ _ Heq).
  by rewrite (Qcompare_comp _ _ (Qminus_comp _ _ Heq _ _ (Qeq_refl _))
                _ _ (Qeq_refl (1 # 2))).
Qed.

Lemma format_0f_proper (q q' : Q) :
  (q == q')%Q → format_0f q = format_0f q'.
Proof.
  intros Heq. unfold format_0f.
  rewrite (round_half_even_proper _ _ Heq).
  by rewrite (Qleb_comp _ _ (Qeq_refl 0) _ _ Heq).
Qed.

(** ** One run of [fetch] *)

Section FetchFacts.

Variable str_format : string → string → exn + string.
Variable get : Request → get_reply.
Variables (site_name : string) (site_data : gmap string pyval).
Variables (username : string) (clock : Q).

(** An exception of line 41 is outside the [try]: it leaves [fetch]. *)
Lemma fetch_build_url_raises (e : exn) :
  build_url str_format site_data username = inl e →
  fetch str_format get site_name site_data username clock = (inl e, clock).
Proof. intros Hurl. unfold fetch, bind, lift. by rewrite Hurl. Qed.

(** Once the URL is built, [fetch] never raises, and it returns a record
    exactly on the [Found] path. *)
Lemma fetch_built (url : string) :
  build_url str_format site_data username = inr url →
  (fetch str_format get site_name site_data username clock).1 =
    match (fetch_try get site_name site_data
             (py_get site_data "errorType") url clock).1 with
    | inl _ => inr None
    | inr result => inr result
    end.
Proof.
  intros Hurl. unfold fetch, bind, lift, try_except, ret. rewrite Hurl.
  by destruct (fetch_try _ _ _ _ _ _) as [[e|result] clock'].
Qed.

(** An exception of [session.get] is swallowed by the handler. *)
Lemma fetch_get_raises (url : string) (wait : Q) (e : exn) :
  build_url str_format site_data username = inr url →
  get (request_for url) = GetRaises wait e →
  (fetch str_format get site_name site_data username clock).1 = inr None
  ∧ verdict get site_name site_data url clock = ProbeFailed.
Proof.
  intros Hurl Hget. rewrite (fetch_built url Hurl). unfold verdict.
  unfold fetch_try, bind, time_time, session_get. by rewrite Hget.
Qed.

(** So is an exception of [response.text()], whatever the status. *)
Lemma fetch_text_raises (url : string) (wait wait' : Q) (r : Response) (e : exn) :
  build_url str_format site_data username = inr url →
  get (request_for url) = GetResponds wait r →
  resp_text r = TextRaises wait' e →
  (fetch str_format get site_name site_data username clock).1 = inr None
  ∧ verdict get site_name site_data url clock = ProbeFailed.
Proof.
  intros Hurl Hget Htext. rewrite (fetch_built url Hurl). unfold verdict.
  unfold fetch_try, bind, time_time, session_get, response_text.
  by rewrite Hget; simpl; rewrite Htext.
Qed.

(** When the response and its body arrive, the outcome is decided by
    [detect]; the latency is taken between the two readings of the clock
    around [session.get]. *)
Lemma fetch_try_received (url : string) (wait wait' : Q) (r : Response)
    (body : string) :
  get (request_for url) = GetResponds wait r →
  resp_text r = TextReturns wait' body →
  fetch_try get site_name site_data (py_get site_data "errorType") url clock =
    (match detect site_data (py_get site_data "errorType") url r
             (resp_status r) body with
     | inl e => inl e
     | inr true =>
         inr (Some {| site := site_name; url := url; status_field := "Found";
                      latency_ms := format_0f ((clock + wait - clock) * 1000);
                      category := "Social" |})
     | inr false => inr None
     end, (clock + wait + wait')%Q).
Proof.
  intros Hget Htext.
  unfold fetch_try, bind, time_time, session_get, response_text, lift, ret, sleep.
  rewrite Hget; simpl. rewrite Htext; simpl.
  by destruct (detect _ _ _ _ _ _) as [e|[]].
Qed.

End FetchFacts.

(** Runs [fetch] and [verdict] on a probe whose URL is built ([Hurl]) and
    whose response ([Hget]) and body ([Htext]) arrive. *)
Ltac fetch_received Hurl Hget Htext :=
  rewrite (fetch_built _ _ _ _ _ _ _ Hurl); unfold verdict;
  rewrite (fetch_try_received _ _ _ _ _ _ _ _ _ Hget Htext).

(** ** The detection rules *)

Lemma py_eq_str_true (v : pyval) (s : string) :
  py_eq_str v s = true ↔ v = PyStr s.
Proof.
  destruct v; simpl; try (split; [discriminate | intros [=]]).
  rewrite bool_decide_eq_true. split; congruence.
Qed.

Lemma py_eq_str_false (v : pyval) (s : string) :
  v ≠ PyStr s → py_eq_str v s = false.
Proof.
  intros Hne. destruct (py_eq_str v s) eqn:Heq; [|done].
  by apply py_eq_str_true in Heq.
Qed.

(** C2 — StatusCode rule. For a descriptor whose [errorType] is
    ["status_code"], when the response and its body are received, [fetch]
    returns a match record (verdict [Found]) if and only if the status is
    not 404; with status 404 the verdict is [NotFound]. *)
Theorem fetch_status_code_rule
    (str_format : string → string → exn + string) (get : Request → get_reply)
    (site_name : string) (site_data : gmap string pyval) (username : string)
    (clock : Q) (url : string) (wait wait' : Q) (r : Response) (body : string) :
  build_url str_format site_data username = inr url →
  py_get site_data "errorType" = PyStr "status_code" →
  get (request_for url) = GetResponds wait r →
  resp_text r = TextReturns wait' body →
  (verdict get site_name site_data url clock = Found ↔ resp_status r ≠ 404)
  ∧ (verdict get site_name site_data url clock = NotFound ↔ resp_status r = 404)
  ∧ ((∃ m, (fetch str_format get site_name site_data username clock).1
             = inr (Some m)) ↔ resp_status r ≠ 404).
Proof.
  intros Hurl Hrule Hget Htext.
  fetch_received Hurl Hget Htext.
  unfold detect. rewrite Hrule. simpl.
  destruct (Z.eqb_spec (resp_status r) 404) as [Heq|Hne]; simpl.
  - repeat split; try done. by intros [m [=]].
  - repeat split; try done. eauto.
Qed.

Lemma fetch_status_code_rule_witness :
  verdict (serve 500 "Internal Server Error") "SiteA" site_a
    "https://a.test/alice" 0 = Found ↔ 500 ≠ 404.
Proof.
  apply (fetch_status_code_rule str_format_model
           (serve 500 "Internal Server Error") "SiteA" site_a "alice" 0
           "https://a.test/alice" (1 # 10) 2
           {| resp_status := 500; resp_url := "https://a.test/alice";
              resp_text := TextReturns 2 "Internal Server Error" |}
           "Internal Server Error");
    vm_compute; reflexivity.
Defined.

(** C3 — Message rule. For a descriptor whose [errorType] is ["message"]
    and whose [errorMsg] is the string [marker], when the response and its
    body are received, [fetch] returns a match record (verdict [Found]) if
    and only if [marker] does not occur in the body text; when it occurs
    the verdict is [NotFound]. *)
Theorem fetch_message_rule
    (str_format : string → string → exn + string) (get : Request → get_reply)
    (site_name : string) (site_data : gmap string pyval) (username : string)
    (clock : Q) (url : string) (wait wait' : Q) (r : Response)
    (body marker : string) :
  build_url str_format site_data username = inr url →
  py_get site_data "errorType" = PyStr "message" →
  py_get site_data "errorMsg" = PyStr marker →
  get (request_for url) = GetResponds wait r →
  resp_text r = TextReturns wait' body →
  let occurs := ∃ pre post, body = pre +:+ marker +:+ post in
  (verdict get site_name site_data url clock = Found ↔ ¬ occurs)
  ∧ (verdict get site_name site_data url clock = NotFound ↔ occurs)
  ∧ ((∃ m, (fetch str_format get site_name site_data username clock).1
             = inr (Some m)) ↔ ¬ occurs).
Proof.
  intros Hurl Hrule Hmsg Hget Htext occurs. subst occurs.
  fetch_received Hurl Hget Htext.
  unfold detect. rewrite Hrule, Hmsg. simpl.
  rewrite <- str_contains_spec.
  destruct (str_contains marker body); simpl.
  - repeat split; try done. by intros [m [=]].
  - repeat split; try done. eauto.
Qed.

Lemma fetch_message_rule_witness :
  verdict (serve 200 "Sorry. User not found here.") "SiteB" site_b
    "https://b.test/alice" 0 = NotFound
  ↔ ∃ pre post,
      "Sorry. User not found here." = pre +:+ "User not found" +:+ post.
Proof.
  apply (fetch_message_rule str_format_model
           (serve 200 "Sorry. User not found here.") "SiteB" site_b "alice" 0
           "https://b.test/alice" (1 # 10) 2
           {| resp_status := 200; resp_url := "https://b.test/alice";
              resp_text := TextReturns 2 "Sorry. User not found here." |}
           "Sorry. User not found here." "User not found");
    vm_compute; reflexivity.
Defined.

(** C4 — ResponseURL rule. For a descriptor whose [errorType] is
    ["response_url"], when the response and its body are received, [fetch]
    returns a match record (verdict [Found]) if and only if the string of
    the final URL equals, character for character, the URL built from the
    template; otherwise the verdict is [NotFound]. *)
Theorem fetch_response_url_rule
    (str_format : string → string → exn + string) (get : Request → get_reply)
    (site_name : string) (site_data : gmap string pyval) (username : string)
    (clock : Q) (url : string) (wait wait' : Q) (r : Response) (body : string) :
  build_url str_format site_data username = inr url →
  py_get site_data "errorType" = PyStr "response_url" →
  get (request_for url) = GetResponds wait r →
  resp_text r = TextReturns wait' body →
  (verdict get site_name site_data url clock = Found ↔ resp_url r = url)
  ∧ (verdict get site_name site_data url clock = NotFound ↔ resp_url r ≠ url)
  ∧ ((∃ m, (fetch str_format get site_name site_data username clock).1
             = inr (Some m)) ↔ resp_url r = url).
Proof.
  intros Hurl Hrule Hget Htext.
  fetch_received Hurl Hget Htext.
  unfold detect. rewrite Hrule. simpl.
  case_bool_decide as Heq; simpl.
  - repeat split; try done. eauto.
  - repeat split; try done. by intros [m [=]].
Qed.

Lemma fetch_response_url_rule_witness :
  verdict redirect_home "SiteC" site_c "https://c.test/u/alice" 0 = NotFound
  ↔ "https://c.test/" ≠ "https://c.test/u/alice".
Proof.
  apply (fetch_response_url_rule str_format_model redirect_home "SiteC"
           site_c "alice" 0 "https://c.test/u/alice" (1 # 10) 2
           {| resp_status := 200; resp_url := "https://c.test/";
              resp_text := TextReturns 2 "Welcome" |} "Welcome");
    vm_compute; reflexivity.
Defined.

(** ** Unrecognised rules *)

Lemma detect_unrecognized (site_data : gmap string pyval) (error_type : pyval)
    (url : string) (r : Response) (status : Z) (body : string) :
  error_type ≠ PyStr "status_code" →
  error_type ≠ PyStr "message" →
  error_type ≠ PyStr "response_url" →
  detect site_data error_type url r status body = inr false.
Proof.
  intros H1 H2 H3. unfold detect.
  by rewrite !py_eq_str_false.
Qed.

(** With an unrecognised rule the body of the [try] never reaches the
    [return] of line 64. *)
Lemma fetch_try_unrecognized (get : Request → get_reply) (site_name : string)
    (site_data : gmap string pyval) (url : string) (clock : Q)
    (m : match_record) :
  py_get site_data "errorType" ≠ PyStr "status_code" →
  py_get site_data "errorType" ≠ PyStr "message" →
  py_get site_data "errorType" ≠ PyStr "response_url" →
  (fetch_try get site_name site_data (py_get site_data "errorType")
     url clock).1 ≠ inr (Some m).
Proof.
  intros H1 H2 H3.
  unfold fetch_try, bind, time_time, session_get, response_text, lift, sleep,
    raise, ret.
  destruct (get (request_for url)) as [wait e|wait r]; simpl; [done|].
  destruct (resp_text r) as [wait' e|wait' body]; simpl; [done|].
  by rewrite detect_unrecognized.
Qed.

(** C10 — A descriptor whose [errorType] is missing ([.get] gives [None])
    or is none of ["status_code"], ["message"], ["response_url"] never
    yields a match record; when the response and its body are received
    the [try] body runs to its end without exception (verdict [NotFound],
    not [ProbeFailed]) and [fetch] returns [None], as for a genuine
    non-match. *)
Theorem fetch_unrecognized_rule
    (str_format : string → string → exn + string) (get : Request → get_reply)
    (site_name : string) (site_data : gmap string pyval) (username : string)
    (clock : Q) :
  py_get site_data "errorType" ≠ PyStr "status_code" →
  py_get site_data "errorType" ≠ PyStr "message" →
  py_get site_data "errorType" ≠ PyStr "response_url" →
  (∀ m, (fetch str_format get site_name site_data username clock).1
          ≠ inr (Some m))
  ∧ (∀ url wait wait' r body,
       build_url str_format site_data username = inr url →
       get (request_for url) = GetResponds wait r →
       resp_text r = TextReturns wait' body →
       verdict get site_name site_data url clock = NotFound
       ∧ (fetch str_format get site_name site_data username clock).1
           = inr None).
Proof.
  intros H1 H2 H3. split.
  - intros m.
    destruct (build_url str_format site_data username) as [e|url] eqn:Hurl.
    + by rewrite (fetch_build_url_raises _ _ _ _ _ _ e Hurl).
    + rewrite (fetch_built _ _ _ _ _ _ url Hurl).
      pose proof (fetch_try_unrecognized get site_name site_data url clock m
                    H1 H2 H3) as Hno.
      destruct (fetch_try _ _ _ _ _ _).1 as [e|result]; congruence.
  - intros url wait wait' r body Hurl Hget Htext.
    fetch_received Hurl Hget Htext.
    by rewrite detect_unrecognized.
Qed.

Lemma fetch_unrecognized_rule_witness :
  (fetch str_format_model (serve 200 "alice's page") "Odd" site_odd
     "alice" 0%Q).1 = inr None
  ∧ (fetch str_format_model (serve 200 "alice's page") "NoRule"
       {[ "url" := PyStr "https://odd.test/{}" ]} "alice" 0%Q).1 = inr None.
Proof.
  split.
  - destruct (fetch_unrecognized_rule str_format_model
                (serve 200 "alice's page") "Odd" site_odd "alice" 0%Q)
      as [_ Hreceived]; try (vm_compute; discriminate).
    apply (Hreceived "https://odd.test/alice" (1 # 10)%Q 2%Q
             {| resp_status := 200; resp_url := "https://odd.test/alice";
                resp_text := TextReturns 2 "alice's page" |} "alice's page");
      vm_compute; reflexivity.
  - destruct (fetch_unrecognized_rule str_format_model
                (serve 200 "alice's page") "NoRule"
                {[ "url" := PyStr "https://odd.test/{}" ]} "alice" 0%Q)
      as [_ Hreceived]; try (vm_compute; discriminate).
    apply (Hreceived "https://odd.test/alice" (1 # 10)%Q 2%Q
             {| resp_status := 200; resp_url := "https://odd.test/alice";
                resp_text := TextReturns 2 "alice's page" |} "alice's page");
      vm_compute; reflexivity.
Defined.

(** ** Failure paths *)

(** C5 — The template of [site_broken] has an unclosed brace: [str.format]
    raises [ValueError] at line 41, before the [try], so the exception
    leaves [fetch] instead of becoming a [None] result, and through
    [await future] it leaves [run_search] as well. *)
Theorem fetch_malformed_template_propagates
    (get : Request → get_reply) (clock : Q) :
  py_format "https://broken.test/{" "alice" = Some (inl ValueError)
  ∧ fetch str_format_model get "Broken" site_broken "alice" clock
      = (inl ValueError, clock)
  ∧ (run_search str_format_model (all_serve "alice") (λ _, clock)
       [0; 1]%nat "alice" [("SiteA", site_a); ("Broken", site_broken)]).2
      = inl ValueError.
Proof.
  split; [by vm_compute|]. split.
  - by apply fetch_build_url_raises.
  - reflexivity.
Qed.

(** ** Latency *)

(** C6 — The latency of a match record is the time between the reading of
    the clock before [session.get] and the reading taken when
    [session.get] has yielded the response, times 1000 and printed with
    no decimals: the [wait] of the request. The time [response.text()]
    takes to read the body does not enter it. *)
Theorem fetch_latency_until_response
    (str_format : string → string → exn + string) (get : Request → get_reply)
    (site_name : string) (site_data : gmap string pyval) (username : string)
    (clock : Q) (url : string) (wait : Q) (r : Response) (m : match_record) :
  build_url str_format site_data username = inr url →
  get (request_for url) = GetResponds wait r →
  (fetch str_format get site_name site_data username clock).1 = inr (Some m) →
  latency_ms m = format_0f ((clock + wait - clock) * 1000)
  ∧ latency_ms m = format_0f (wait * 1000).
Proof.
  intros Hurl Hget Hm.
  assert (latency_ms m = format_0f ((clock + wait - clock) * 1000)) as Hlat.
  { rewrite (fetch_built _ _ _ _ _ _ url Hurl) in Hm.
    destruct (resp_text r) as [wait' e|wait' body] eqn:Htext.
    - destruct (fetch_text_raises str_format get site_name site_data username
                  clock url wait wait' r e Hurl Hget Htext) as [_ Hv].
      unfold verdict in Hv.
      destruct (fetch_try _ _ _ _ _ _).1 as [e'|[m'|]]; congruence.
    - rewrite (fetch_try_received _ _ _ _ _ _ _ _ _ Hget Htext) in Hm.
      simpl in Hm. destruct (detect _ _ _ _ _ _) as [e|[]]; try congruence.
      by injection Hm as <-. }
  split; [done|]. rewrite Hlat. apply format_0f_proper. ring.
Qed.

Lemma fetch_latency_until_response_witness :
  latency_ms {| site := "SiteA"; url := "https://a.test/alice";
                status_field := "Found"; latency_ms := "100";
                category := "Social" |}
  = format_0f ((1 # 10) * 1000).
Proof.
  apply (fetch_latency_until_response str_format_model (serve 200 "alice")
           "SiteA" site_a "alice" 5%Q "https://a.test/alice" (1 # 10)%Q
           {| resp_status := 200; resp_url := "https://a.test/alice";
              resp_text := TextReturns 2 "alice" |});
    vm_compute; reflexivity.
Defined.

(** C6, as the specification states it, fails: the request takes 0.1 s
    and reading the body 2 s more; the record says 100 ms, while 2100 ms
    pass between the start of the request and the end of the body. *)
Lemma latency_excludes_body_read :
  ∃ m clock',
    fetch str_format_model (serve 200 "alice") "SiteA" site_a "alice" 5%Q
      = (inr (Some m), clock')
    ∧ latency_ms m = "100"
    ∧ format_0f ((clock' - 5) * 1000) = "2100"
    ∧ latency_ms m ≠ format_0f ((clock' - 5) * 1000).
Proof.
  eexists _, _. split; [vm_compute; reflexivity|].
  split; [reflexivity|]. split; [by vm_compute|]. by vm_compute.
Qed.

(** A match record echoes the name of its entry and the URL built from
    the entry's template. *)
Lemma fetch_record_fields
    (str_format : string → string → exn + string) (get : Request → get_reply)
    (site_name : string) (site_data : gmap string pyval) (username : string)
    (clock : Q) (m : match_record) :
  (fetch str_format get site_name site_data username clock).1 = inr (Some m) →
  site m = site_name
  ∧ build_url str_format site_data username = inr (url m)
  ∧ status_field m = "Found".
Proof.
  intros Hm.
  destruct (build_url str_format site_data username) as [e|u] eqn:Hurl.
  { by rewrite (fetch_build_url_raises _ _ _ _ _ _ e Hurl) in Hm. }
  rewrite (fetch_built _ _ _ _ _ _ u Hurl) in Hm.
  destruct (get (request_for u)) as [wait e|wait r] eqn:Hget.
  { exfalso. revert Hm.
    unfold fetch_try, bind, time_time, session_get. by rewrite Hget. }
  destruct (resp_text r) as [wait' e|wait' body] eqn:Htext.
  { exfalso. revert Hm.
    unfold fetch_try, bind, time_time, session_get, response_text.
    by rewrite Hget; simpl; rewrite Htext. }
  rewrite (fetch_try_received _ _ _ _ _ _ _ _ _ Hget Htext) in Hm.
  simpl in Hm. destruct (detect _ _ _ _ _ _) as [e|[]]; try congruence.
  by injection Hm as <-.
Qed.

(** ** The loop of [run_search] *)

Lemma awaited_returns (futures : list (exn + option match_record)) :
  Forall returns futures → futures = inr <$> awaited futures.
Proof.
  induction 1 as [|[e|result] futures Hret _ IH]; [done..|].
  change (inr result :: futures = inr result :: (inr <$> awaited futures)).
  by f_equal.
Qed.

(** One update per awaited future, numbered from [completed + 1]. *)
Lemma collect_ui (futures : list (exn + option match_record)) (total : Z)
    (results : list match_record) (done_ : nat) (ui : list ui_event) :
  (collect futures total results (Z.of_nat done_) ui).1 =
    ui ++ (tick total <$> seq (S done_) (length (awaited futures))).
Proof.
  revert results done_ ui.
  induction futures as [|[e|result] futures IH]; intros results done_ ui; simpl.
  - by rewrite app_nil_r.
  - by rewrite app_nil_r.
  - replace (Z.of_nat done_ + 1) with (Z.of_nat (S done_)) by lia.
    rewrite IH, <- app_assoc. simpl. do 3 f_equal.
Qed.

(** The loop returns only if no future raises, and then with the records
    of the awaited futures, in their order. *)
Lemma collect_returns (futures : list (exn + option match_record)) (total : Z)
    (results : list match_record) (completed : Z) (ui : list ui_event)
    (res : list match_record) :
  (collect futures total results completed ui).2 = inr res →
  Forall returns futures ∧ res = results ++ omap found_record futures.
Proof.
  revert results completed ui.
  induction futures as [|[e|result] futures IH]; intros results completed ui;
    simpl.
  - intros [= <-]. by rewrite app_nil_r.
  - discriminate.
  - intros Hres. apply IH in Hres as [Hret ->]. split.
    + by constructor.
    + destruct result; simpl; [by rewrite <- app_assoc | done].
Qed.

Lemma collect_total (futures : list (exn + option match_record)) (total : Z)
    (results : list match_record) (completed : Z) (ui : list ui_event) :
  Forall returns futures →
  (collect futures total results completed ui).2 =
    inr (results ++ omap found_record futures).
Proof.
  intros Hret. revert results completed ui.
  induction Hret as [|[e|result] futures Hr _ IH]; intros results completed ui;
    simpl.
  - by rewrite app_nil_r.
  - done.
  - rewrite IH. destruct result; simpl; [by rewrite <- app_assoc | done].
Qed.

(** ** Completion order *)

Lemma omap_lookup_seq {A} (pre l : list A) :
  omap (λ i, (pre ++ l) !! i) (seq (length pre) (length l)) = l.
Proof.
  revert pre. induction l as [|x l IH]; intros pre; simpl; [done|].
  rewrite list_lookup_middle by done. f_equal.
  specialize (IH (pre ++ [x])).
  rewrite length_app, <- app_assoc in IH. simpl in IH.
  by replace (length pre + 1)%nat with (S (length pre)) in IH by lia.
Qed.

(** Whatever the order of completion, every task is yielded once. *)
Lemma as_completed_perm {A} (order : list nat) (futures : list A) :
  order ≡ₚ seq 0 (length futures) → as_completed order futures ≡ₚ futures.
Proof.
  intros Horder. unfold as_completed. rewrite Horder.
  pose proof (omap_lookup_seq [] futures) as Hseq. simpl in Hseq.
  by rewrite Hseq.
Qed.

(** ** Progress values *)

Lemma progress_values_ticks (total : Z) (n : nat) :
  progress_values (ProgressBar 0 :: (tick total <$> seq 1 n))
  = 0%Q :: (fraction total <$> seq 1 n).
Proof.
  unfold progress_values. rewrite fmap_cons, <- list_fmap_compose. done.
Qed.

Lemma updates_ticks (total : Z) (n : nat) :
  updates (ProgressBar 0 :: (tick total <$> seq 1 n))
  = fraction total <$> seq 1 n.
Proof.
  unfold updates. simpl. generalize (seq 1 n). intros l.
  induction l as [|k l IH]; [done|].
  rewrite !fmap_cons. simpl. by f_equal.
Qed.

Lemma fraction_le (total : Z) (i j : nat) :
  (0 ≤ total)%Z → (i ≤ j)%nat → (fraction total i <= fraction total j)%Q.
Proof.
  intros Htotal Hij. unfold fraction, Qdiv.
  apply Qmult_le_compat_r.
  - rewrite <- Zle_Qle. lia.
  - apply Qinv_le_0_compat. replace 0%Q with (inject_Z 0) by done.
    by rewrite <- Zle_Qle.
Qed.

Lemma fraction_full (n : nat) :
  (0 < n)%nat → (fraction (Z.of_nat n) n == 1)%Q.
Proof.
  intros Hn. unfold fraction. apply Qmult_inv_r.
  replace 0%Q with (inject_Z 0) by done. rewrite inject_Z_injective. lia.
Qed.

(** The values of the bar are those of [fraction], the initial 0 being
    [fraction total 0]. *)
Lemma progress_values_lookup (total : Z) (n i : nat) (a : Q) :
  (0%Q :: (fraction total <$> seq 1 n)) !! i = Some a →
  (a == fraction total i)%Q.
Proof.
  destruct i as [|i]; simpl.
  - intros [= <-]. unfold fraction, Qdiv. simpl. by rewrite Qmult_0_l.
  - rewrite list_lookup_fmap. intros Hlook.
    apply fmap_Some in Hlook as [k [Hk ->]].
    apply lookup_seq in Hk as [-> _]. done.
Qed.

Lemma progress_values_monotone (total : Z) (n i j : nat) (a b : Q) :
  (0 ≤ total)%Z → (i ≤ j)%nat →
  (0%Q :: (fraction total <$> seq 1 n)) !! i = Some a →
  (0%Q :: (fraction total <$> seq 1 n)) !! j = Some b →
  (a <= b)%Q.
Proof.
  intros Htotal Hij Ha Hb.
  rewrite (progress_values_lookup _ _ _ _ Ha), (progress_values_lookup _ _ _ _ Hb).
  by apply fraction_le.
Qed.

(** ** The scan *)

Section SearchFacts.

Variable str_format : string → string → exn + string.
Variable network : Z → nat → Request → get_reply.
Variable clock : nat → Q.
Variable order : list nat.
Variable username : string.
Variable site_data : list (string * gmap string pyval).

Local Abbreviation tasks :=
  (imap (outcome str_format network clock username) (dispatched site_data)).

Lemma dispatched_length :
  length (dispatched site_data) = (length site_data `min` 200)%nat.
Proof. unfold dispatched. rewrite length_take. lia. Qed.

Lemma tasks_length : length tasks = length (dispatched site_data).
Proof. apply length_imap. Qed.

(** The page after the scan: the bar, then one update for each future
    awaited before the first that raises. *)
Lemma run_search_ui :
  (run_search str_format network clock order username site_data).1 =
    ProgressBar 0 ::
      (tick (Z.of_nat (length (dispatched site_data))) <$>
         seq 1 (length (awaited (as_completed order tasks)))).
Proof.
  unfold run_search. fold tasks. rewrite tasks_length.
  exact (collect_ui (as_completed order tasks) _ [] 0%nat [ProgressBar 0]).
Qed.

(** When no task raises and every task completes, all of them are
    awaited. *)
Lemma awaited_all :
  order ≡ₚ seq 0 (length (dispatched site_data)) →
  Forall returns tasks →
  length (awaited (as_completed order tasks)) = length (dispatched site_data).
Proof.
  intros Horder Hret. rewrite <- tasks_length in Horder.
  pose proof (as_completed_perm order tasks Horder) as Hperm.
  rewrite <- Hperm in Hret.
  rewrite <- tasks_length, <- (Permutation_length Hperm).
  rewrite (awaited_returns _ Hret) at 2. by rewrite length_fmap.
Qed.

(** When no task raises, [run_search] returns, with the records in
    completion order. *)
Lemma run_search_total :
  order ≡ₚ seq 0 (length (dispatched site_data)) →
  Forall returns tasks →
  (run_search str_format network clock order username site_data).2
    = inr (omap found_record (as_completed order tasks)).
Proof.
  intros Horder Hret. rewrite <- tasks_length in Horder.
  rewrite <- (as_completed_perm order tasks Horder) in Hret.
  unfold run_search. by rewrite collect_total.
Qed.

End SearchFacts.

(** ** Claims on [run_search] *)


(** C7 — When no dispatched task raises, with [total] the number of
    dispatched entries (the minimum of the catalogue's length and 200):
    after the bar is created at 0, the [k]-th completion, whatever its
    result, emits the one update [k / total]; the values shown never
    decrease; and for [total > 0] the last update is 1, emitted after
    [total] completions. For an empty catalogue no update is emitted. *)
Theorem run_search_progress
    (str_format : string → string → exn + string)
    (network : Z → nat → Request → get_reply) (clock : nat → Q)
    (order : list nat) (username : string)
    (site_data : list (string * gmap string pyval)) :
  let total := length (dispatched site_data) in
  let ui := (run_search str_format network clock order username site_data).1 in
  order ≡ₚ seq 0 total →
  Forall returns (imap (outcome str_format network clock username)
                    (dispatched site_data)) →
  total = (length site_data `min` 200)%nat
  ∧ ui = ProgressBar 0 :: (tick (Z.of_nat total) <$> seq 1 total)
  ∧ updates ui = fraction (Z.of_nat total) <$> seq 1 total
  ∧ length (updates ui) = total
  ∧ (∀ i j a b, (i ≤ j)%nat →
       progress_values ui !! i = Some a → progress_values ui !! j = Some b →
       (a <= b)%Q)
  ∧ ((0 < total)%nat → ∃ v, last (updates ui) = Some v ∧ (v == 1)%Q)
  ∧ (total = 0%nat → updates ui = []).
Proof.
  intros total ui Horder Hret.
  assert (ui = ProgressBar 0 :: (tick (Z.of_nat total) <$> seq 1 total)) as Hui.
  { unfold ui. rewrite run_search_ui. by rewrite awaited_all. }
  assert (updates ui = fraction (Z.of_nat total) <$> seq 1 total) as Hup.
  { rewrite Hui. apply updates_ticks. }
  split; [apply dispatched_length|]. split; [done|]. split; [done|].
  split; [by rewrite Hup, length_fmap, length_seq|]. split; [|split].
  - intros i j a b Hij. rewrite Hui, progress_values_ticks.
    apply progress_values_monotone; [lia | done].
  - intros Hpos. rewrite Hup. destruct total as [|n] eqn:Htotal; [lia|].
    rewrite fmap_last, seq_S, last_snoc. eexists. split; [done|].
    apply fraction_full. lia.
  - intros Hzero. rewrite Hup, Hzero. done.
Qed.

Lemma run_search_progress_witness :
  updates (run_search str_format_model (all_serve "User not found") at_zero
             [1; 0]%nat "alice" two_sites).1
  = fraction 2 <$> [1; 2]%nat.
Proof.
  apply (run_search_progress str_format_model (all_serve "User not found")
           at_zero [1; 0]%nat "alice" two_sites).
  - simpl. apply Permutation_swap.
  - vm_compute. repeat constructor.
Defined.

(** C7, as the specification states it, fails: for an empty catalogue the
    only value that reaches the bar is the initial 0, and for 201 entries
    there are 200 updates. *)
Lemma run_search_progress_not_one :
  (run_search str_format_model (all_serve "") at_zero [] "alice" []).1
    = [ProgressBar 0]
  ∧ last (updates (run_search str_format_model (all_serve "") at_zero []
                     "alice" []).1) = None
  ∧ length catalogue_201 = 201%nat
  ∧ length (updates (run_search str_format_model (all_serve "") at_zero
                       (seq 0 200) "alice" catalogue_201).1) = 200%nat.
Proof.
  split; [reflexivity|]. split; [reflexivity|]. split; [reflexivity|].
  by vm_compute.
Qed.

(** * Further properties of the engine *)

(** ** What a returned record tells *)

(** A record comes from the [return] of line 64 only: the URL was built,
    the response and its body arrived, and the rule set [exists]. *)
Lemma fetch_some_inv
    (str_format : string → string → exn + string) (get : Request → get_reply)
    (site_name : string) (site_data : gmap string pyval) (username : string)
    (clock : Q) (m : match_record) :
  (fetch str_format get site_name site_data username clock).1 = inr (Some m) →
  ∃ url wait r wait' body,
    build_url str_format site_data username = inr url
    ∧ get (request_for url) = GetResponds wait r
    ∧ resp_text r = TextReturns wait' body
    ∧ detect site_data (py_get site_data "errorType") url r (resp_status r) body
      = inr true
    ∧ m = {| site := site_name; url := url; status_field := "Found";
             latency_ms := format_0f ((clock + wait - clock) * 1000);
             category := "Social" |}.
Proof.
  intros Hm.
  destruct (build_url str_format site_data username) as [e|u] eqn:Hurl.
  { by rewrite (fetch_build_url_raises _ _ _ _ _ _ e Hurl) in Hm. }
  rewrite (fetch_built _ _ _ _ _ _ u Hurl) in Hm.
  destruct (get (request_for u)) as [wait e|wait r] eqn:Hget.
  { exfalso. revert Hm.
    unfold fetch_try, bind, time_time, session_get. by rewrite Hget. }
  destruct (resp_text r) as [wait' e|wait' body] eqn:Htext.
  { exfalso. revert Hm.
    unfold fetch_try, bind, time_time, session_get, response_text.
    by rewrite Hget; simpl; rewrite Htext. }
  rewrite (fetch_try_received _ _ _ _ _ _ _ _ _ Hget Htext) in Hm.
  simpl in Hm. exists u, wait, r, wait', body.
  destruct (detect _ _ _ _ _ _) as [e|[]]; try congruence.
  by injection Hm as <-.
Qed.

(** Once the URL is built, [fetch] returns. *)
Lemma fetch_built_returns
    (str_format : string → string → exn + string) (get : Request → get_reply)
    (site_name : string) (site_data : gmap string pyval) (username : string)
    (clock : Q) (url : string) :
  build_url str_format site_data username = inr url →
  returns (fetch str_format get site_name site_data username clock).1.
Proof.
  intros Hurl. rewrite (fetch_built _ _ _ _ _ _ url Hurl).
  by destruct (fetch_try _ _ _ _ _ _).1.
Qed.

(** X1 — The exceptions that leave [fetch] are exactly those of line 41:
    [fetch] raises [e] if and only if building the URL raises [e]. *)
Theorem fetch_raises_iff_build_url
    (str_format : string → string → exn + string) (get : Request → get_reply)
    (site_name : string) (site_data : gmap string pyval) (username : string)
    (clock : Q) (e : exn) :
  (fetch str_format get site_name site_data username clock).1 = inl e
  ↔ build_url str_format site_data username = inl e.
Proof.
  destruct (build_url str_format site_data username) as [e'|url] eqn:Hurl.
  - rewrite (fetch_build_url_raises _ _ _ _ _ _ e' Hurl). simpl.
    split; congruence.
  - pose proof (fetch_built_returns str_format get site_name site_data
                  username clock url Hurl) as Hret.
    destruct (fetch _ _ _ _ _ _).1; [done|]. split; discriminate.
Qed.

(** X2 — A failure of the HTTP exchange is swallowed: when the URL is
    built and [session.get] raises, or the response arrives and
    [response.text()] raises, [fetch] returns [None] through the handler,
    whatever the rule and the status. *)
Theorem fetch_swallows_http_failure
    (str_format : string → string → exn + string) (get : Request → get_reply)
    (site_name : string) (site_data : gmap string pyval) (username : string)
    (clock : Q) (url : string) :
  build_url str_format site_data username = inr url →
  (∃ wait e, get (request_for url) = GetRaises wait e)
  ∨ (∃ wait r wait' e, get (request_for url) = GetResponds wait r
                        ∧ resp_text r = TextRaises wait' e) →
  (fetch str_format get site_name site_data username clock).1 = inr None
  ∧ verdict get site_name site_data url clock = ProbeFailed.
Proof.
  intros Hurl [(wait & e & Hget) | (wait & r & wait' & e & Hget & Htext)].
  - by apply (fetch_get_raises _ _ _ _ _ _ _ wait e).
  - by apply (fetch_text_raises _ _ _ _ _ _ _ wait wait' r e).
Qed.

Lemma fetch_swallows_http_failure_witness :
  (fetch str_format_model unreachable "SiteA" site_a "alice" 0%Q).1 = inr None
  ∧ (fetch str_format_model serve_binary "SiteA" site_a "alice" 0%Q).1
    = inr None.
Proof.
  split.
  - apply (fetch_swallows_http_failure str_format_model unreachable "SiteA"
             site_a "alice" 0%Q "https://a.test/alice").
    + vm_compute. reflexivity.
    + left. by exists 10%Q, TimeoutError.
  - apply (fetch_swallows_http_failure str_format_model serve_binary "SiteA"
             site_a "alice" 0%Q "https://a.test/alice").
    + vm_compute. reflexivity.
    + right. eexists (1 # 10)%Q, _, (1 # 2)%Q, UnicodeDecodeError.
      split; vm_compute; reflexivity.
Defined.

(** X3 — With the rule ["message"] and an [errorMsg] that is absent or not
    a string, [errorMsg not in text] raises [TypeError] inside the [try]:
    [fetch] never returns a record, and a probe whose response and body
    arrive ends in the handler. *)
Theorem fetch_message_rule_without_string_marker
    (str_format : string → string → exn + string) (get : Request → get_reply)
    (site_name : string) (site_data : gmap string pyval) (username : string)
    (clock : Q) :
  py_get site_data "errorType" = PyStr "message" →
  (∀ marker, py_get site_data "errorMsg" ≠ PyStr marker) →
  (∀ m, (fetch str_format get site_name site_data username clock).1
          ≠ inr (Some m))
  ∧ (∀ url wait wait' r body,
       build_url str_format site_data username = inr url →
       get (request_for url) = GetResponds wait r →
       resp_text r = TextReturns wait' body →
       verdict get site_name site_data url clock = ProbeFailed
       ∧ (fetch str_format get site_name site_data username clock).1
           = inr None).
Proof.
  intros Hrule Hmsg.
  assert (∀ url r status body,
            detect site_data (py_get site_data "errorType") url r status body
            = inl TypeError) as Hdetect.
  { intros url r status body. unfold detect. rewrite Hrule. simpl.
    destruct (py_get site_data "errorMsg") as [| | | |marker|] eqn:Hm; try done.
    by destruct (Hmsg marker). }
  split.
  - intros m Hsome.
    apply fetch_some_inv in Hsome as (url & wait & r & wait' & body & _ & _ & _ & Hd & _).
    by rewrite Hdetect in Hd.
  - intros url wait wait' r body Hurl Hget Htext.
    fetch_received Hurl Hget Htext. by rewrite Hdetect.
Qed.

Lemma fetch_message_rule_without_string_marker_witness :
  verdict (serve 200 "alice's page") "Markers" site_markers
    "https://m.test/alice" 0 = ProbeFailed
  ∧ (fetch str_format_model (serve 200 "alice's page") "Markers"
       site_markers "alice" 0%Q).1 = inr None.
Proof.
  destruct (fetch_message_rule_without_string_marker str_format_model
              (serve 200 "alice's page") "Markers" site_markers "alice" 0%Q)
    as [_ Hreceived].
  - vm_compute. reflexivity.
  - intros marker. vm_compute. discriminate.
  - apply (Hreceived "https://m.test/alice" (1 # 10)%Q 2%Q
             {| resp_status := 200; resp_url := "https://m.test/alice";
                resp_text := TextReturns 2 "alice's page" |} "alice's page");
      vm_compute; reflexivity.
Defined.

Lemma str_contains_empty (haystack : string) : str_contains "" haystack = true.
Proof. by destruct haystack. Qed.

(** X4 — With the rule ["message"] and the empty string as marker, the
    marker occurs in every body: [fetch] never returns a record, and a
    probe whose response and body arrive is a non-match. *)
Theorem fetch_message_rule_empty_marker
    (str_format : string → string → exn + string) (get : Request → get_reply)
    (site_name : string) (site_data : gmap string pyval) (username : string)
    (clock : Q) :
  py_get site_data "errorType" = PyStr "message" →
  py_get site_data "errorMsg" = PyStr "" →
  (∀ m, (fetch str_format get site_name site_data username clock).1
          ≠ inr (Some m))
  ∧ (∀ url wait wait' r body,
       build_url str_format site_data username = inr url →
       get (request_for url) = GetResponds wait r →
       resp_text r = TextReturns wait' body →
       verdict get site_name site_data url clock = NotFound).
Proof.
  intros Hrule Hmsg.
  assert (∀ url r status body,
            detect site_data (py_get site_data "errorType") url r status body
            = inr false) as Hdetect.
  { intros url r status body. unfold detect. rewrite Hrule, Hmsg. simpl.
    by rewrite str_contains_empty. }
  split.
  - intros m Hsome.
    apply fetch_some_inv in Hsome
      as (url & wait & r & wait' & body & _ & _ & _ & Hd & _).
    by rewrite Hdetect in Hd.
  - intros url wait wait' r body Hurl Hget Htext.
    unfold verdict. rewrite (fetch_try_received _ _ _ _ _ _ _ _ _ Hget Htext).
    by rewrite Hdetect.
Qed.

Lemma fetch_message_rule_empty_marker_witness :
  verdict (serve 200 "alice's page") "Empty" site_empty_marker
    "https://e.test/alice" 0 = NotFound.
Proof.
  destruct (fetch_message_rule_empty_marker str_format_model
              (serve 200 "alice's page") "Empty" site_empty_marker "alice" 0%Q)
    as [_ Hreceived].
  - vm_compute. reflexivity.
  - vm_compute. reflexivity.
  - apply (Hreceived "https://e.test/alice" (1 # 10)%Q 2%Q
             {| resp_status := 200; resp_url := "https://e.test/alice";
                resp_text := TextReturns 2 "alice's page" |} "alice's page");
      vm_compute; reflexivity.
Defined.

(** X5 — Every record [fetch] returns has status ["Found"] and category
    ["Social"], carries the name it was called with, comes from an entry
    whose rule is one of the three known ones, and stems from a request
    to its own URL whose response and text body arrived. *)
Theorem fetch_record_shape
    (str_format : string → string → exn + string) (get : Request → get_reply)
    (site_name : string) (site_data : gmap string pyval) (username : string)
    (clock : Q) (m : match_record) :
  (fetch str_format get site_name site_data username clock).1 = inr (Some m) →
  status_field m = "Found"
  ∧ category m = "Social"
  ∧ site m = site_name
  ∧ (py_get site_data "errorType" = PyStr "status_code"
     ∨ py_get site_data "errorType" = PyStr "message"
     ∨ py_get site_data "errorType" = PyStr "response_url")
  ∧ ∃ wait r wait' body,
      get (request_for (url m)) = GetResponds wait r
      ∧ resp_text r = TextReturns wait' body.
Proof.
  intros Hm.
  apply fetch_some_inv in Hm
    as (u & wait & r & wait' & body & Hurl & Hget & Htext & Hd & ->).
  simpl. repeat split; try done.
  - unfold detect in Hd.
    destruct (py_eq_str _ "status_code") eqn:H1;
      [left; by apply py_eq_str_true|].
    destruct (py_eq_str _ "message") eqn:H2;
      [right; left; by apply py_eq_str_true|].
    destruct (py_eq_str _ "response_url") eqn:H3;
      [right; right; by apply py_eq_str_true|].
    discriminate.
  - by exists wait, r, wait', body.
Qed.

Lemma fetch_record_shape_witness :
  category {| site := "SiteA"; url := "https://a.test/alice";
              status_field := "Found"; latency_ms := "100";
              category := "Social" |} = "Social".
Proof.
  apply (fetch_record_shape str_format_model (serve 200 "alice") "SiteA"
           site_a "alice" 5%Q).
  vm_compute. reflexivity.
Defined.

(** X6 — An entry without the key ["url"] makes [fetch] raise [KeyError],
    and one whose ["url"] is not a string [AttributeError], before any
    request is made and whatever [str.format] does. *)
Theorem fetch_without_template
    (str_format : string → string → exn + string) (get : Request → get_reply)
    (site_name : string) (site_data : gmap string pyval) (username : string)
    (clock : Q) :
  (∀ tmpl, site_data !! "url" ≠ Some (PyStr tmpl)) →
  fetch str_format get site_name site_data username clock
  = (inl (match site_data !! "url" with
          | None => KeyError
          | Some _ => AttributeError
          end), clock).
Proof.
  intros Hno. apply fetch_build_url_raises. unfold build_url, py_getitem.
  destruct (site_data !! "url") as [[| | | |tmpl|]|] eqn:Hlook; try done.
  by destruct (Hno tmpl).
Qed.

Lemma fetch_without_template_witness :
  fetch str_format_model (serve 200 "alice") "NoUrl" site_no_url "alice" 0%Q
  = (inl KeyError, 0%Q).
Proof.
  apply (fetch_without_template str_format_model (serve 200 "alice") "NoUrl"
           site_no_url "alice" 0%Q).
  intros tmpl. vm_compute. discriminate.
Defined.

(** ** Building the URL from a template *)

Lemma append_assoc (a b c : string) : (a +:+ b) +:+ c = a +:+ (b +:+ c).
Proof.
  induction a as [|x a IH]; [done|]. rewrite !append_cons. by f_equal.
Qed.

Lemma append_empty_r (a : string) : a +:+ "" = a.
Proof. induction a as [|x a IH]; [done|]. rewrite append_cons. by f_equal. Qed.

(** A character that is no brace is copied. *)
Lemma format_go_char (c : ascii) (rest : string) (num : numbering)
    (username out : string) :
  c ≠ "{"%char → c ≠ "}"%char →
  format_go (String c rest) InText num username out
  = format_go rest InText num username (out +:+ String c "").
Proof.
  intros Hopen Hclose.
  destruct c as [[] [] [] [] [] [] [] []]; try reflexivity; congruence.
Qed.

(** Text without braces is copied. *)
Lemma format_go_text (text rest : string) (num : numbering)
    (username out : string) :
  brace_free text = true →
  format_go (text +:+ rest) InText num username out
  = format_go rest InText num username (out +:+ text).
Proof.
  revert out. induction text as [|c text IH]; intros out Hfree.
  - by rewrite append_empty_r.
  - simpl in Hfree. apply andb_true_iff in Hfree as [Hc Hfree].
    apply andb_true_iff in Hc as [Hopen Hclose].
    apply negb_true_iff, bool_decide_eq_false in Hopen, Hclose.
    rewrite append_cons, format_go_char, IH by done.
    by rewrite append_assoc.
Qed.

(** The first [{}] of a template is replaced by the argument. *)
Lemma format_go_placeholder (rest username out : string) :
  format_go ("{}" +:+ rest) InText NumUnset username out
  = format_go rest InText NumAuto username (out +:+ username).
Proof. reflexivity. Qed.

(** X8 — For a template made of a text without braces, one [{}] and
    another text without braces, line 41 builds the template with the
    username put in place of [{}], character for character: nothing in
    the username is escaped or checked. *)
Theorem build_url_single_placeholder
    (site_data : gmap string pyval) (pre post username : string) :
  site_data !! "url" = Some (PyStr (pre +:+ "{}" +:+ post)) →
  brace_free pre = true →
  brace_free post = true →
  py_format (pre +:+ "{}" +:+ post) username
    = Some (inr (pre +:+ username +:+ post))
  ∧ build_url str_format_model site_data username
    = inr (pre +:+ username +:+ post).
Proof.
  intros Hlook Hpre Hpost.
  assert (py_format (pre +:+ "{}" +:+ post) username
          = Some (inr (pre +:+ username +:+ post))) as Hformat.
  { unfold py_format.
    rewrite format_go_text, format_go_placeholder by done.
    rewrite <- (append_empty_r post) at 1.
    rewrite format_go_text by done. simpl.
    by rewrite append_assoc. }
  split; [done|].
  unfold build_url, py_getitem, str_format_model. by rewrite Hlook, Hformat.
Qed.

Lemma build_url_single_placeholder_witness :
  build_url str_format_model site_c "a b/../{0}"
  = inr ("https://c.test/u/" +:+ "a b/../{0}" +:+ "").
Proof.
  apply (build_url_single_placeholder site_c "https://c.test/u/" ""
           "a b/../{0}"); vm_compute; reflexivity.
Defined.

(** X9 — A template without any brace has no place for the username: the
    URL is the template itself, the same for every username, and no
    exception shows the missing placeholder. *)
Theorem build_url_no_placeholder
    (site_data : gmap string pyval) (tmpl username : string) :
  site_data !! "url" = Some (PyStr tmpl) →
  brace_free tmpl = true →
  build_url str_format_model site_data username = inr tmpl.
Proof.
  intros Hlook Hfree.
  unfold build_url, py_getitem, str_format_model, py_format.
  rewrite Hlook. rewrite <- (append_empty_r tmpl) at 1.
  by rewrite format_go_text.
Qed.

Lemma build_url_no_placeholder_witness :
  build_url str_format_model {[ "url" := PyStr "https://fixed.test/user" ]}
    "alice"
  = inr "https://fixed.test/user".
Proof.
  apply (build_url_no_placeholder
           {[ "url" := PyStr "https://fixed.test/user" ]}
           "https://fixed.test/user" "alice"); vm_compute; reflexivity.
Defined.

(** ** Scans that return and scans that abort *)

Lemma awaited_length (futures : list (exn + option match_record)) :
  (length (awaited futures) ≤ length futures)%nat.
Proof. induction futures as [|[e|result] futures IH]; simpl; lia. Qed.


Lemma length_omap_le {A B} (f : A → option B) (l : list A) :
  (length (omap f l) ≤ length l)%nat.
Proof.
  induction l as [|x l IH]; [done|].
  change (omap f (x :: l))
    with (match f x with Some y => y :: omap f l | None => omap f l end).
  destruct (f x); simpl; lia.
Qed.

(** The names of the records found are, in order, among the names of the
    tasks. *)
Lemma found_sites_sublist (f : nat → string * gmap string pyval
                               → exn + option match_record)
    (l : list (string * gmap string pyval)) :
  (∀ i task m, f i task = inr (Some m) → site m = task.1) →
  site <$> omap found_record (imap f l) `sublist_of` l.*1.
Proof.
  revert f. induction l as [|task l IH]; intros f Hsite; [done|].
  rewrite imap_cons, fmap_cons. simpl.
  destruct (f 0%nat task) as [e|[m|]] eqn:Hout; simpl.
  - apply sublist_cons, IH. intros i. apply (Hsite (S i)).
  - rewrite <- (Hsite _ _ _ Hout). apply sublist_skip, IH.
    intros i. apply (Hsite (S i)).
  - apply sublist_cons, IH. intros i. apply (Hsite (S i)).
Qed.

Section ScanFacts.

Variable str_format : string → string → exn + string.
Variable network : Z → nat → Request → get_reply.
Variable clock : nat → Q.
Variable username : string.
Variable site_data : list (string * gmap string pyval).

Local Abbreviation tasks :=
  (imap (outcome str_format network clock username) (dispatched site_data)).

(** A task returns exactly when the URL of its entry can be built. *)
Lemma outcome_returns_iff (i : nat) (task : string * gmap string pyval) :
  returns (outcome str_format network clock username i task)
  ↔ ∃ url, build_url str_format task.2 username = inr url.
Proof.
  unfold outcome.
  destruct (build_url str_format task.2 username) as [e|url] eqn:Hurl.
  - rewrite (fetch_build_url_raises _ _ _ _ _ _ e Hurl). simpl.
    split; [done | by intros [url [=]]].
  - split; [eauto | intros _]. by eapply fetch_built_returns.
Qed.

Lemma tasks_return_iff :
  Forall returns tasks
  ↔ Forall (λ task, ∃ url, build_url str_format task.2 username = inr url)
      (dispatched site_data).
Proof.
  rewrite !Forall_lookup. split.
  - intros Hret i task Htask. apply (outcome_returns_iff i task).
    apply (Hret i). by rewrite list_lookup_imap, Htask.
  - intros Hurl i future Hfuture. rewrite list_lookup_imap in Hfuture.
    apply fmap_Some in Hfuture as [task [Htask ->]].
    apply outcome_returns_iff. by apply (Hurl i).
Qed.

(** When the scan returns, its records are those of the tasks, up to the
    order of completion. *)
Lemma run_search_returns_perm (order : list nat) (results : list match_record) :
  order ≡ₚ seq 0 (length (dispatched site_data)) →
  (run_search str_format network clock order username site_data).2
    = inr results →
  Forall returns tasks ∧ results ≡ₚ omap found_record tasks.
Proof.
  intros Horder Hres.
  rewrite <- (tasks_length str_format network clock username) in Horder.
  pose proof (as_completed_perm order tasks Horder) as Hperm.
  apply collect_returns in Hres as [Hret ->]. simpl.
  split; [by rewrite <- Hperm | by rewrite Hperm].
Qed.

End ScanFacts.

(** X10 — Whether a scan returns depends on the templates alone: when
    every dispatched task completes, [run_search] returns a result if and
    only if the URL of each of the first 200 entries can be built,
    whatever the network answers. *)
Theorem run_search_returns_iff_urls_build
    (str_format : string → string → exn + string)
    (network : Z → nat → Request → get_reply) (clock : nat → Q)
    (order : list nat) (username : string)
    (site_data : list (string * gmap string pyval)) :
  order ≡ₚ seq 0 (length (dispatched site_data)) →
  (∃ results,
     (run_search str_format network clock order username site_data).2
     = inr results)
  ↔ Forall (λ task, ∃ url, build_url str_format task.2 username = inr url)
      (dispatched site_data).
Proof.
  intros Horder. rewrite <- tasks_return_iff. split.
  - intros [results Hres].
    by destruct (run_search_returns_perm _ _ _ _ _ _ _ Horder Hres).
  - intros Hret. eexists. by apply run_search_total.
Qed.

Lemma run_search_returns_iff_urls_build_witness :
  ∃ results,
    (run_search str_format_model all_unreachable at_zero [1; 0]%nat "alice"
       two_sites).2 = inr results.
Proof.
  apply (run_search_returns_iff_urls_build str_format_model all_unreachable
           at_zero [1; 0]%nat "alice" two_sites).
  - simpl. apply Permutation_swap.
  - repeat constructor; eexists; vm_compute; reflexivity.
Defined.



(** X12 — The matches do not depend on the order of completion: if a scan
    returns under one order, it returns under every other order with the
    same records up to their order, and with the same progress values. *)
Theorem run_search_order_independent
    (str_format : string → string → exn + string)
    (network : Z → nat → Request → get_reply) (clock : nat → Q)
    (order order' : list nat) (username : string)
    (site_data : list (string * gmap string pyval))
    (results : list match_record) :
  order ≡ₚ seq 0 (length (dispatched site_data)) →
  order' ≡ₚ seq 0 (length (dispatched site_data)) →
  (run_search str_format network clock order username site_data).2
    = inr results →
  ∃ results',
    (run_search str_format network clock order' username site_data).2
      = inr results'
    ∧ results ≡ₚ results'
    ∧ (run_search str_format network clock order username site_data).1
      = (run_search str_format network clock order' username site_data).1.
Proof.
  intros Horder Horder' Hres.
  destruct (run_search_returns_perm _ _ _ _ _ _ _ Horder Hres) as [Hret Hperm].
  pose proof (run_search_total _ _ _ _ _ _ Horder' Hret) as Hres'.
  destruct (run_search_returns_perm _ _ _ _ _ _ _ Horder' Hres') as [_ Hperm'].
  eexists. split; [done|]. split; [by rewrite Hperm, Hperm'|].
  by rewrite !run_search_ui, !awaited_all.
Qed.

Lemma run_search_order_independent_witness :
  ∃ results',
    (run_search str_format_model (all_serve "alice") at_zero [0; 1]%nat
       "alice" two_sites).2 = inr results'
    ∧ [ {| site := "SiteB"; url := "https://b.test/alice";
           status_field := "Found"; latency_ms := "100";
           category := "Social" |};
        {| site := "SiteA"; url := "https://a.test/alice";
           status_field := "Found"; latency_ms := "100";
           category := "Social" |} ] ≡ₚ results'
    ∧ (run_search str_format_model (all_serve "alice") at_zero [1; 0]%nat
         "alice" two_sites).1
      = (run_search str_format_model (all_serve "alice") at_zero [0; 1]%nat
           "alice" two_sites).1.
Proof.
  apply (run_search_order_independent str_format_model (all_serve "alice")
           at_zero [1; 0]%nat [0; 1]%nat "alice" two_sites).
  - simpl. apply Permutation_swap.
  - simpl. reflexivity.
  - vm_compute. reflexivity.
Defined.

Lemma fraction_pos (total : Z) (k : nat) :
  (0 < total)%Z → (0 < k)%nat → (0 < fraction total k)%Q.
Proof.
  intros Htotal Hk. unfold fraction, Qdiv.
  apply Qmult_lt_0_compat; [|apply Qinv_lt_0_compat];
    replace 0%Q with (inject_Z 0) by done; rewrite <- Zlt_Qlt; lia.
Qed.

(** X13 — Every value passed to [progress_bar.progress] lies in (0, 1],
    whether the scan returns or aborts: the bar is never asked for a
    value outside its range. *)
Theorem run_search_updates_in_range
    (str_format : string → string → exn + string)
    (network : Z → nat → Request → get_reply) (clock : nat → Q)
    (order : list nat) (username : string)
    (site_data : list (string * gmap string pyval)) (v : Q) :
  order ≡ₚ seq 0 (length (dispatched site_data)) →
  v ∈ updates (run_search str_format network clock order username
                 site_data).1 →
  (0 < v)%Q ∧ (v <= 1)%Q.
Proof.
  intros Horder Hv.
  set (tasks := imap (outcome str_format network clock username)
                  (dispatched site_data)) in *.
  assert (length tasks = length (dispatched site_data)) as Hlen
    by apply length_imap.
  rewrite <- Hlen in Horder.
  pose proof (Permutation_length (as_completed_perm order tasks Horder)) as Hall.
  pose proof (awaited_length (as_completed order tasks)) as Hawaited.
  rewrite run_search_ui, updates_ticks in Hv. fold tasks in Hv.
  apply list_elem_of_fmap in Hv as [k [-> Hk]].
  apply elem_of_seq in Hk. rewrite <- Hlen.
  split.
  - apply fraction_pos; lia.
  - rewrite <- (fraction_full (length tasks)) by lia.
    apply fraction_le; lia.
Qed.

Lemma run_search_updates_in_range_witness :
  (0 < 1 # 2)%Q ∧ (1 # 2 <= 1)%Q.
Proof.
  apply (run_search_updates_in_range str_format_model (all_serve "alice")
           at_zero [0; 1]%nat "alice" broken_sites).
  - simpl. reflexivity.
  - vm_compute. apply list_elem_of_here.
Defined.

(** X14 — A scan that returns gives at most one record per dispatched
    entry, hence at most 200 records however long the catalogue is. *)
Theorem run_search_results_bound
    (str_format : string → string → exn + string)
    (network : Z → nat → Request → get_reply) (clock : nat → Q)
    (order : list nat) (username : string)
    (site_data : list (string * gmap string pyval))
    (results : list match_record) :
  order ≡ₚ seq 0 (length (dispatched site_data)) →
  (run_search str_format network clock order username site_data).2
    = inr results →
  (length results ≤ length site_data `min` 200)%nat.
Proof.
  intros Horder Hres.
  destruct (run_search_returns_perm _ _ _ _ _ _ _ Horder Hres) as [_ Hperm].
  rewrite (Permutation_length Hperm), <- dispatched_length.
  rewrite <- (tasks_length str_format network clock username).
  apply length_omap_le.
Qed.

Lemma run_search_results_bound_witness :
  (length [ {| site := "SiteB"; url := "https://b.test/alice";
               status_field := "Found"; latency_ms := "100";
               category := "Social" |};
            {| site := "SiteA"; url := "https://a.test/alice";
               status_field := "Found"; latency_ms := "100";
               category := "Social" |} ]
   ≤ length two_sites `min` 200)%nat.
Proof.
  apply (run_search_results_bound str_format_model (all_serve "alice")
           at_zero [1; 0]%nat "alice" two_sites).
  - simpl. apply Permutation_swap.
  - vm_compute. reflexivity.
Defined.

(** X15 — When the names of the catalogue are pairwise distinct, as the
    keys of a dict are, no site is reported twice: the records of a scan
    that returns have pairwise distinct names. *)
Theorem run_search_sites_distinct
    (str_format : string → string → exn + string)
    (network : Z → nat → Request → get_reply) (clock : nat → Q)
    (order : list nat) (username : string)
    (site_data : list (string * gmap string pyval))
    (results : list match_record) :
  order ≡ₚ seq 0 (length (dispatched site_data)) →
  NoDup site_data.*1 →
  (run_search str_format network clock order username site_data).2
    = inr results →
  NoDup (site <$> results).
Proof.
  intros Horder Hnames Hres.
  destruct (run_search_returns_perm _ _ _ _ _ _ _ Horder Hres) as [_ Hperm].
  rewrite Hperm.
  apply (sublist_NoDup _ site_data.*1); [exact Hnames|].
  transitivity ((dispatched site_data).*1).
  - apply found_sites_sublist. intros i task m Hout.
    by apply fetch_record_fields in Hout as [Hsite _].
  - unfold dispatched. rewrite fmap_take. apply sublist_take.
Qed.

Lemma run_search_sites_distinct_witness :
  NoDup (site <$> [ {| site := "SiteB"; url := "https://b.test/alice";
                       status_field := "Found"; latency_ms := "100";
                       category := "Social" |};
                    {| site := "SiteA"; url := "https://a.test/alice";
                       status_field := "Found"; latency_ms := "100";
                       category := "Social" |} ]).
Proof.
  apply (run_search_sites_distinct str_format_model (all_serve "alice")
           at_zero [1; 0]%nat "alice" two_sites).
  - simpl. apply Permutation_swap.
  - apply (bool_decide_unpack _). by vm_compute.
  - vm_compute. reflexivity.
Defined.

(** ** The page *)

Lemma dict_set_fresh {V} (key : string) (value : V) (d : list (string * V)) :
  key ∉ d.*1 → dict_set key value d = d ++ [(key, value)].
Proof.
  induction d as [|[k v] d IH]; intros Hfresh; [done|].
  rewrite fmap_cons, not_elem_of_cons in Hfresh. destruct Hfresh as [Hne Hfresh].
  simpl. rewrite bool_decide_eq_false_2 by done. by rewrite IH.
Qed.

Lemma py_dict_from {V} (d pairs : list (string * V)) :
  NoDup (d ++ pairs).*1 →
  foldl (λ d kv, dict_set kv.1 kv.2 d) d pairs = d ++ pairs.
Proof.
  revert d. induction pairs as [|[k v] pairs IH]; intros d Hnodup.
  - by rewrite app_nil_r.
  - simpl. rewrite dict_set_fresh.
    + rewrite IH; rewrite <- app_assoc; done.
    + rewrite fmap_app, fmap_cons in Hnodup.
      apply NoDup_app in Hnodup as (_ & Hfresh & _).
      intros Hin. apply (Hfresh k Hin). apply list_elem_of_here.
Qed.

(** On pairs with distinct keys, [dict] keeps the pairs as they are. *)
Lemma py_dict_nodup {V} (pairs : list (string * V)) :
  NoDup pairs.*1 → py_dict pairs = pairs.
Proof. intros Hnodup. by apply (py_dict_from []). Qed.

Lemma NoDup_take_names {V} (n : nat) (pairs : list (string * V)) :
  NoDup pairs.*1 → NoDup (take n pairs).*1.
Proof.
  intros Hnodup. rewrite fmap_take.
  apply (sublist_NoDup _ pairs.*1); [done | apply sublist_take].
Qed.

(** [run_search] looks at the first 200 entries only. *)
Lemma run_search_take
    (str_format : string → string → exn + string)
    (network : Z → nat → Request → get_reply) (clock : nat → Q)
    (order : list nat) (username : string)
    (site_data : list (string * gmap string pyval)) :
  run_search str_format network clock order username (take 200 site_data)
  = run_search str_format network clock order username site_data.
Proof. unfold run_search, dispatched. by rewrite take_take. Qed.

(** X16 — The search depth changes nothing but two counts: for a
    catalogue with distinct names, the page of any mode other than
    ["Fast (Top 200 Sites)"] is the page of the fast mode with the length
    of the whole catalogue as number of platforms and as coverage; the
    probes, the progress and the matches are those of the first 200
    sites. *)
Theorem main_deep_is_fast_recounted
    (str_format : string → string → exn + string)
    (network : Z → nat → Request → get_reply) (clock : nat → Q)
    (start_btn : bool) (target_username search_mode : string)
    (sites_df : list (string * gmap string pyval)) (order : list nat) :
  NoDup sites_df.*1 →
  search_mode ≠ "Fast (Top 200 Sites)" →
  main str_format network clock start_btn target_username search_mode
    (inr sites_df) order
  = recount (length sites_df)
      <$> main str_format network clock start_btn target_username
            "Fast (Top 200 Sites)" (inr sites_df) order.
Proof.
  intros Hnodup Hmode. unfold main.
  destruct (start_btn && _); [|done].
  rewrite (bool_decide_eq_false_2 _ Hmode).
  rewrite (bool_decide_eq_true_2 ("Fast (Top 200 Sites)" = _) eq_refl).
  rewrite (py_dict_nodup sites_df Hnodup).
  rewrite (py_dict_nodup _ (NoDup_take_names 200 _ Hnodup)).
  rewrite run_search_take.
  by destruct (run_search _ _ _ _ _ _).2 as [e|[|m results]].
Qed.

Lemma main_deep_is_fast_recounted_witness :
  main str_format_model (all_serve "alice") at_zero true "alice"
    "Deep (All Sites)" frame_201 (seq 0 200)
  = recount 201
      <$> main str_format_model (all_serve "alice") at_zero true "alice"
            "Fast (Top 200 Sites)" frame_201 (seq 0 200).
Proof.
  apply (main_deep_is_fast_recounted str_format_model (all_serve "alice")
           at_zero true "alice" "Deep (All Sites)" catalogue_201 (seq 0 200)).
  - apply (bool_decide_unpack _). by vm_compute.
  - discriminate.
Defined.

Lemma omap_found_nil (futures : list (exn + option match_record)) :
  omap found_record futures = [] ↔ Forall (λ o, found_record o = None) futures.
Proof.
  induction futures as [|o futures IH].
  - split; [constructor | done].
  - change (omap found_record (o :: futures))
      with (match found_record o with
            | Some m => m :: omap found_record futures
            | None => omap found_record futures
            end).
    rewrite Forall_cons. destruct (found_record o) as [m|].
    + split; [discriminate | by intros [? _]].
    + rewrite IH. split; [by intros H; split | by intros [_ H]].
Qed.

(** The two ways a scan in which every task completes can end. *)
Lemma run_search_result_cases
    (str_format : string → string → exn + string)
    (network : Z → nat → Request → get_reply) (clock : nat → Q)
    (order : list nat) (username : string)
    (site_data : list (string * gmap string pyval)) :
  let tasks := imap (outcome str_format network clock username)
                 (dispatched site_data) in
  order ≡ₚ seq 0 (length (dispatched site_data)) →
  (Forall returns tasks
   ∧ ∃ results,
       (run_search str_format network clock order username site_data).2
       = inr results
       ∧ results ≡ₚ omap found_record tasks)
  ∨ (¬ Forall returns tasks
     ∧ ∃ e, (run_search str_format network clock order username site_data).2
            = inl e).
Proof.
  intros tasks Horder.
  destruct (run_search str_format network clock order username site_data).2
    as [e|results] eqn:Hres.
  - right. split; [|by exists e]. intros Hret.
    by rewrite (run_search_total _ _ _ _ _ _ Horder Hret) in Hres.
  - left. destruct (run_search_returns_perm _ _ _ _ _ _ _ Horder Hres).
    split; [done|]. by exists results.
Qed.

Section PageFacts.

Variable str_format : string → string → exn + string.
Variable network : Z → nat → Request → get_reply.
Variable clock : nat → Q.
Variables (start_btn : bool) (target_username search_mode : string).
Variable sites_df : list (string * gmap string pyval).
Variable order : list nat.

Hypothesis names_distinct : NoDup sites_df.*1.

(** What [main] scans, whatever the mode, is the first 200 sites. *)
Lemma main_scan (p : page) :
  main str_format network clock start_btn target_username search_mode
    (inr sites_df) order = Some p →
  let scan := run_search str_format network clock order target_username
                sites_df in
  let platforms := if bool_decide (search_mode = "Fast (Top 200 Sites)")
                   then (length sites_df `min` 200)%nat
                   else length sites_df in
  p = match scan.2 with
      | inl e => {| progress := scan.1; status_text := Scanning platforms;
                    shown := ErrorBox e |}
      | inr [] => {| progress := scan.1; status_text := Cleared;
                     shown := NoMatches |}
      | inr results => {| progress := scan.1; status_text := Cleared;
                          shown := Dashboard results platforms |}
      end.
Proof.
  unfold main. destruct (start_btn && _); [|done].
  case_bool_decide as Hmode.
  - rewrite (py_dict_nodup _ (NoDup_take_names 200 _ names_distinct)).
    rewrite run_search_take, length_take, Nat.min_comm.
    destruct (run_search _ _ _ _ _ _).2 as [e|[|m results]];
      intros Hp; by injection Hp as <-.
  - rewrite (py_dict_nodup sites_df names_distinct).
    destruct (run_search _ _ _ _ _ _).2 as [e|[|m results]];
      intros Hp; by injection Hp as <-.
Qed.

End PageFacts.

(** X17 — The coverage on the dashboard is the length of the selected
    catalogue, not the number of sites probed: in the fast mode it is
    the minimum of the catalogue's length and 200, in any other mode the
    whole length, while the matches shown are never more than that
    minimum. *)
Theorem main_coverage
    (str_format : string → string → exn + string)
    (network : Z → nat → Request → get_reply) (clock : nat → Q)
    (start_btn : bool) (target_username search_mode : string)
    (sites_df : list (string * gmap string pyval)) (order : list nat)
    (p : page) (df : list match_record) (coverage : nat) :
  NoDup sites_df.*1 →
  order ≡ₚ seq 0 (length (dispatched sites_df)) →
  main str_format network clock start_btn target_username search_mode
    (inr sites_df) order = Some p →
  shown p = Dashboard df coverage →
  coverage = (if bool_decide (search_mode = "Fast (Top 200 Sites)")
              then (length sites_df `min` 200)%nat
              else length sites_df)
  ∧ df ≠ []
  ∧ (length df ≤ length sites_df `min` 200)%nat.
Proof.
  intros Hnodup Horder Hmain Hshown.
  apply main_scan in Hmain; [|done]. simpl in Hmain. subst p.
  destruct (run_search_result_cases str_format network clock order
              target_username sites_df Horder)
    as [(_ & results & Hres & Hperm) | (_ & e & Hres)];
    rewrite Hres in Hshown; [|done].
  destruct results as [|m results]; [done|].
  injection Hshown as <- <-. split; [done|]. split; [done|].
  rewrite (Permutation_length Hperm), <- dispatched_length.
  rewrite <- (tasks_length str_format network clock target_username).
  apply length_omap_le.
Qed.

Lemma main_coverage_witness :
  2%nat = (if bool_decide ("Deep (All Sites)" = "Fast (Top 200 Sites)")
           then (length two_sites `min` 200)%nat
           else length two_sites)
  ∧ [match_b; match_a] ≠ []
  ∧ (length [match_b; match_a] ≤ length two_sites `min` 200)%nat.
Proof.
  eapply (main_coverage str_format_model (all_serve "alice") at_zero true
            "alice" "Deep (All Sites)" two_sites [1; 0]%nat).
  - apply (bool_decide_unpack _). by vm_compute.
  - simpl. apply Permutation_swap.
  - vm_compute. reflexivity.
  - reflexivity.
Defined.

(** Either every URL can be built or some entry has none. *)
Lemma urls_build_or_not (str_format : string → string → exn + string)
    (username : string) (l : list (string * gmap string pyval)) :
  Forall (λ task, ∃ url, build_url str_format task.2 username = inr url) l
  ∨ ∃ i task e, l !! i = Some task
                ∧ build_url str_format task.2 username = inl e.
Proof.
  induction l as [|task l IH]; [left; constructor|].
  destruct (build_url str_format task.2 username) as [e|url] eqn:Hurl.
  - right. by exists 0%nat, task, e.
  - destruct IH as [Hall | (i & task' & e & Hlook & Hurl')].
    + left. constructor; eauto.
    + right. by exists (S i), task', e.
Qed.

(** An exception of a scan in which every task completes is the one of
    a dispatched entry whose URL cannot be built. *)
Lemma run_search_raises_inv
    (str_format : string → string → exn + string)
    (network : Z → nat → Request → get_reply) (clock : nat → Q)
    (order : list nat) (username : string)
    (site_data : list (string * gmap string pyval)) (e : exn) :
  order ≡ₚ seq 0 (length (dispatched site_data)) →
  (run_search str_format network clock order username site_data).2 = inl e →
  ∃ i site_name data e',
    site_data !! i = Some (site_name, data) ∧ (i < 200)%nat
    ∧ build_url str_format data username = inl e'.
Proof.
  intros Horder Hres.
  destruct (run_search_result_cases str_format network clock order username
              site_data Horder)
    as [(_ & results & Hres' & _) | (Hno & _)]; [congruence|].
  rewrite tasks_return_iff in Hno.
  destruct (urls_build_or_not str_format username (dispatched site_data))
    as [Hall | (i & [site_name data] & e' & Htask & Hurl)]; [done|].
  apply lookup_take_Some in Htask as [Htask Hi].
  by exists i, site_name, data, e'.
Qed.

(** X18 — Once the catalogue is loaded, the page shows the error box
    exactly when one of the first 200 entries has a template from which
    no URL can be built; what the network does to the probes never leads
    there. *)
Theorem main_error_iff_template
    (str_format : string → string → exn + string)
    (network : Z → nat → Request → get_reply) (clock : nat → Q)
    (start_btn : bool) (target_username search_mode : string)
    (sites_df : list (string * gmap string pyval)) (order : list nat)
    (p : page) :
  NoDup sites_df.*1 →
  order ≡ₚ seq 0 (length (dispatched sites_df)) →
  main str_format network clock start_btn target_username search_mode
    (inr sites_df) order = Some p →
  (∃ e, shown p = ErrorBox e)
  ↔ ∃ i site_name data e,
      sites_df !! i = Some (site_name, data) ∧ (i < 200)%nat
      ∧ build_url str_format data target_username = inl e.
Proof.
  intros Hnodup Horder Hmain.
  apply main_scan in Hmain; [|done]. simpl in Hmain. subst p. split.
  - intros [e Hshown].
    destruct (run_search _ _ _ _ _ _).2 as [e'|[|m results]] eqn:Hres;
      try discriminate.
    by apply (run_search_raises_inv str_format network clock order
                target_username sites_df e' Horder).
  - intros (i & site_name & data & e & Hlook & Hi & Hurl).
    destruct (run_search_result_cases str_format network clock order
                target_username sites_df Horder)
      as [(Hret & _) | (_ & e' & Hres)].
    + exfalso. rewrite tasks_return_iff, Forall_lookup in Hret.
      destruct (Hret i (site_name, data)) as [url Hurl'].
      * by apply lookup_take_Some.
      * simpl in Hurl'. congruence.
    + exists e'. by rewrite Hres.
Qed.

Lemma main_error_iff_template_witness :
  (∃ e, shown {| progress := [ProgressBar 0; ProgressUpdate (1 # 2)];
                 status_text := Scanning 2;
                 shown := ErrorBox ValueError |} = ErrorBox e)
  ↔ ∃ i site_name data e,
      broken_sites !! i = Some (site_name, data) ∧ (i < 200)%nat
      ∧ build_url str_format_model data "alice" = inl e.
Proof.
  apply (main_error_iff_template str_format_model (all_serve "alice") at_zero
           true "alice" "Deep (All Sites)" broken_sites [0; 1]%nat).
  - apply (bool_decide_unpack _). by vm_compute.
  - simpl. reflexivity.
  - vm_compute. reflexivity.
Defined.

(** X19 — The page says that there are no matches exactly when every
    dispatched probe returned [None]: none raised and none found the
    user. *)
Theorem main_no_matches_iff
    (str_format : string → string → exn + string)
    (network : Z → nat → Request → get_reply) (clock : nat → Q)
    (start_btn : bool) (target_username search_mode : string)
    (sites_df : list (string * gmap string pyval)) (order : list nat)
    (p : page) :
  NoDup sites_df.*1 →
  order ≡ₚ seq 0 (length (dispatched sites_df)) →
  main str_format network clock start_btn target_username search_mode
    (inr sites_df) order = Some p →
  shown p = NoMatches
  ↔ Forall (λ future, future = inr None)
      (imap (outcome str_format network clock target_username)
         (dispatched sites_df)).
Proof.
  intros Hnodup Horder Hmain.
  apply main_scan in Hmain; [|done]. simpl in Hmain. subst p.
  destruct (run_search_result_cases str_format network clock order
              target_username sites_df Horder)
    as [(Hret & results & Hres & Hperm) | (Hno & e & Hres)]; rewrite Hres.
  - assert (results = [] ↔ omap found_record
              (imap (outcome str_format network clock target_username)
                 (dispatched sites_df)) = []) as Hnil.
    { split; intros Hempty.
      - rewrite Hempty in Hperm. by apply Permutation_nil_l in Hperm.
      - rewrite Hempty in Hperm. by apply Permutation_nil_r in Hperm. }
    rewrite omap_found_nil in Hnil.
    transitivity (results = []).
    { destruct results; split; done. }
    rewrite Hnil, !Forall_lookup. split.
    + intros Hnone i future Hfuture.
      specialize (Hnone i future Hfuture).
      rewrite Forall_lookup in Hret. specialize (Hret i future Hfuture).
      by destruct future as [e|[m|]].
    + intros Hnone i future Hfuture. by rewrite (Hnone i future Hfuture).
  - split; [done|]. intros Hnone. destruct Hno.
    eapply Forall_impl; [exact Hnone|]. by intros future ->.
Qed.

Lemma main_no_matches_iff_witness :
  shown {| progress := [ProgressBar 0; ProgressUpdate (1 # 2);
                        ProgressUpdate (2 # 2)];
           status_text := Cleared; shown := NoMatches |} = NoMatches
  ↔ Forall (λ future, future = inr None)
      (imap (outcome str_format_model all_unreachable at_zero "alice")
         (dispatched two_sites)).
Proof.
  apply (main_no_matches_iff str_format_model all_unreachable at_zero
           true "alice" "Fast (Top 200 Sites)" two_sites [1; 0]%nat).
  - apply (bool_decide_unpack _). by vm_compute.
  - simpl. apply Permutation_swap.
  - vm_compute. reflexivity.
Defined.

(** * Dispatch and results of a scan *)






